(** * EV dashboard: the data pipeline of [src/App.jsx]

    The component [App] derives everything it shows from two inputs, the
    rows delivered by [useDataLoader] (PapaParse with [header] and
    [dynamicTyping]) and the filter selection:

      raw rows -> [data] -> [filteredData] -> [avgBattery], [yearly],
                                               [topStates], [vehicleTypes]
                  [data] -> [years], [states]

    The development has these parts: a model of the fragment of JavaScript
    the pipeline runs on (module [JS]), the pipeline itself (module [App]),
    the notions its properties are stated with (module [Spec]), sample rows
    (module [Samples]), and the properties. *)

From Stdlib Require Import List ZArith NArith PArith Bool Ascii String.
From Stdlib Require Import Lia Permutation Sorted.
Import ListNotations.

Set Implicit Arguments.

(** * The JavaScript fragment *)

Module JS.

Local Open Scope char_scope.
Local Open Scope Z_scope.

(** ** Numbers

    A JavaScript number is NaN, an infinity, a signed zero or a finite
    non-zero value.  Finite values are kept as exact decimals
    [(-1)^neg * m * 10^e]: every binary64 value is such a decimal, and so
    is every literal a CSV cell can hold.  Addition, subtraction and
    multiplication are exact on them; the rounding and the overflow of
    binary64 are not modelled.  One value has several representations
    ([Finite false 15 0] and [Finite false 150 (-1)]), so numbers are
    compared with [num_compare], never structurally. *)

Inductive number : Type :=
| NaN
| Infinity (neg : bool)
| Zero (neg : bool)
| Finite (neg : bool) (m : positive) (e : Z).

Definition signed (neg : bool) (m : positive) : Z :=
  if neg then Zneg m else Zpos m.

(** The mantissa of [m * 10^e] once the exponent is lowered to [e0 <= e]. *)
Definition scale (z e e0 : Z) : Z := z * 10 ^ (e - e0).

Definition of_mantissa (z e : Z) : number :=
  match z with
  | Z0 => Zero false
  | Zpos m => Finite false m e
  | Zneg m => Finite true m e
  end.

Definition num_of_Z (z : Z) : number := of_mantissa z 0.
Definition num_of_nat (n : nat) : number := num_of_Z (Z.of_nat n).

Definition num_opp (x : number) : number :=
  match x with
  | NaN => NaN
  | Infinity s => Infinity (negb s)
  | Zero s => Zero (negb s)
  | Finite s m e => Finite (negb s) m e
  end.

Definition num_add (x y : number) : number :=
  match x, y with
  | NaN, _ | _, NaN => NaN
  | Infinity sx, Infinity sy => if Bool.eqb sx sy then x else NaN
  | Infinity _, _ => x
  | _, Infinity _ => y
  | Zero sx, Zero sy => Zero (sx && sy)
  | Zero _, _ => y
  | _, Zero _ => x
  | Finite sx mx ex, Finite sy my ey =>
      let e0 := Z.min ex ey in
      of_mantissa (scale (signed sx mx) ex e0 + scale (signed sy my) ey e0) e0
  end.

Definition num_sub (x y : number) : number := num_add x (num_opp y).

Definition num_mul (x y : number) : number :=
  match x, y with
  | NaN, _ | _, NaN => NaN
  | Infinity _, Zero _ | Zero _, Infinity _ => NaN
  | Infinity sx, Infinity sy => Infinity (xorb sx sy)
  | Infinity sx, Finite sy _ _ => Infinity (xorb sx sy)
  | Finite sx _ _, Infinity sy => Infinity (xorb sx sy)
  | Zero sx, Zero sy => Zero (xorb sx sy)
  | Zero sx, Finite sy _ _ => Zero (xorb sx sy)
  | Finite sx _ _, Zero sy => Zero (xorb sx sy)
  | Finite sx mx ex, Finite sy my ey => Finite (xorb sx sy) (mx * my) (ex + ey)
  end.

(** Division is the one operation that leaves the finite decimals.  The
    quotient is exact when it terminates within the working precision, and
    is otherwise rounded to nearest, ties to even, after at least twenty
    significant digits. *)
Definition div_digits (my : positive) : Z := 20 + Z.log2 (Zpos my) + 1.

Definition div_mantissa (mx my : positive) : Z * Z :=
  let k := div_digits my in
  let q := Zpos mx * 10 ^ k / Zpos my in
  let r := Zpos mx * 10 ^ k mod Zpos my in
  let q' := match 2 * r ?= Zpos my with
            | Lt => q
            | Gt => q + 1
            | Eq => if Z.even q then q else q + 1
            end in
  (q', k).

Definition num_div (x y : number) : number :=
  match x, y with
  | NaN, _ | _, NaN => NaN
  | Infinity _, Infinity _ => NaN
  | Zero _, Zero _ => NaN
  | Infinity sx, Zero sy => Infinity (xorb sx sy)
  | Infinity sx, Finite sy _ _ => Infinity (xorb sx sy)
  | Finite sx _ _, Zero sy => Infinity (xorb sx sy)
  | Zero sx, Infinity sy => Zero (xorb sx sy)
  | Zero sx, Finite sy _ _ => Zero (xorb sx sy)
  | Finite sx _ _, Infinity sy => Zero (xorb sx sy)
  | Finite sx mx ex, Finite sy my ey =>
      let '(q, k) := div_mantissa mx my in
      match q with
      | Zpos m => Finite (xorb sx sy) m (ex - ey - k)
      | _ => Zero (xorb sx sy)
      end
  end.

(** The order of the number line; [None] when an operand is NaN.  The two
    zeros are equal. *)
Definition num_compare (x y : number) : option comparison :=
  match x, y with
  | NaN, _ | _, NaN => None
  | Infinity sx, Infinity sy =>
      Some (match sx, sy with
            | true, false => Lt
            | false, true => Gt
            | _, _ => Eq
            end)
  | Infinity s, _ => Some (if s then Lt else Gt)
  | _, Infinity s => Some (if s then Gt else Lt)
  | Zero _, Zero _ => Some Eq
  | Zero _, Finite s _ _ => Some (if s then Gt else Lt)
  | Finite s _ _, Zero _ => Some (if s then Lt else Gt)
  | Finite sx mx ex, Finite sy my ey =>
      let e0 := Z.min ex ey in
      Some (scale (signed sx mx) ex e0 ?= scale (signed sy my) ey e0)
  end.

Definition num_eqb (x y : number) : bool :=
  match num_compare x y with Some Eq => true | _ => false end.

Definition num_ltb (x y : number) : bool :=
  match num_compare x y with Some Lt => true | _ => false end.

Definition num_leb (x y : number) : bool :=
  match num_compare x y with Some Lt | Some Eq => true | _ => false end.

Definition num_is_nan (x : number) : bool :=
  match x with NaN => true | _ => false end.

Definition num_is_zero (x : number) : bool :=
  match x with Zero _ => true | _ => false end.

(** An integral value: a zero, or a finite decimal with no fractional
    digit. *)
Definition num_is_integer (x : number) : bool :=
  match x with
  | Zero _ => true
  | Finite _ m e => (0 <=? e) || (Zpos m mod 10 ^ (- e) =? 0)
  | _ => false
  end.

(** [Math.round]: the closest integer, ties towards +Infinity. *)
Definition Math_round (x : number) : number :=
  match x with
  | Finite s m e =>
      if 0 <=? e then x
      else
        let d := 10 ^ (- e) in
        let z := (2 * signed s m + d) / (2 * d) in
        if z =? 0 then Zero s else of_mantissa z 0
  | _ => x
  end.

(** [Math.max] of two arguments. *)
Definition Math_max (x y : number) : number :=
  match num_compare x y with
  | None => NaN
  | Some Lt => y
  | Some Gt => x
  | Some Eq =>
      match x with
      | Zero true => y
      | _ => x
      end
  end.

(** ** Numeric strings

    Strings are sequences of 8-bit code units.  [num_to_string] is
    Number::toString (radix 10) and [string_to_num] is StringToNumber of
    ECMA-262, both on lists of characters. *)

Definition digit_char (d : Z) : ascii := ascii_of_N (Z.to_N (48 + d)).

Definition digit_val (c : ascii) : option Z :=
  let n := Z.of_N (N_of_ascii c) in
  if (48 <=? n) && (n <=? 57) then Some (n - 48) else None.

Fixpoint digits_fuel (fuel : nat) (z : Z) (acc : list ascii) : list ascii :=
  match fuel with
  | O => acc
  | S f =>
      let acc' := digit_char (z mod 10) :: acc in
      if z <? 10 then acc' else digits_fuel f (z / 10) acc'
  end.

(** The decimal digits of a non-negative integer, most significant first. *)
Definition digits (z : Z) : list ascii :=
  digits_fuel (S (Z.to_nat (Z.log2 z))) z [].

Definition digit_step (a : Z) (c : ascii) : Z :=
  10 * a + match digit_val c with Some d => d | None => 0 end.

Definition digits_value (ds : list ascii) : Z := fold_left digit_step ds 0.

(** The decimal [m * 10^e] with the trailing zeros of [m] moved into the
    exponent. *)
Fixpoint strip_zeros (fuel : nat) (m e : Z) : Z * Z :=
  match fuel with
  | O => (m, e)
  | S f => if m mod 10 =? 0 then strip_zeros f (m / 10) (e + 1) else (m, e)
  end.

Definition canon (m : positive) (e : Z) : Z * Z :=
  strip_zeros (S (Z.to_nat (Z.log2 (Zpos m)))) (Zpos m) e.

(** Number::toString on a positive finite value: with [k] digits [ds] and
    the decimal point after the [n]-th digit, the four layouts of the
    standard. *)
Definition layout (ds : list ascii) (n : Z) : list ascii :=
  let k := Z.of_nat (List.length ds) in
  if (k <=? n) && (n <=? 21) then ds ++ repeat "0" (Z.to_nat (n - k))
  else if (0 <? n) && (n <=? 21) then
    firstn (Z.to_nat n) ds ++ "." :: skipn (Z.to_nat n) ds
  else if (-6 <? n) && (n <=? 0) then
    "0" :: "." :: repeat "0" (Z.to_nat (- n)) ++ ds
  else
    let x := n - 1 in
    let sgn := if x <? 0 then "-" else "+" in
    match ds with
    | [] => []
    | [d] => d :: "e" :: sgn :: digits (Z.abs x)
    | d :: rest => d :: "." :: rest ++ "e" :: sgn :: digits (Z.abs x)
    end.

Definition print_finite (m : positive) (e : Z) : list ascii :=
  let '(m', e') := canon m e in
  let ds := digits m' in
  layout ds (Z.of_nat (List.length ds) + e').

Definition num_to_chars (x : number) : list ascii :=
  match x with
  | NaN => list_ascii_of_string "NaN"
  | Infinity false => list_ascii_of_string "Infinity"
  | Infinity true => list_ascii_of_string "-Infinity"
  | Zero _ => ["0"]
  | Finite false m e => print_finite m e
  | Finite true m e => "-" :: print_finite m e
  end.

Definition num_to_string (x : number) : string :=
  string_of_list_ascii (num_to_chars x).

(** StrWhiteSpaceChar, as far as it fits in one code unit: TAB, LF, VT, FF,
    CR, SP and NBSP. *)
Definition is_ws (c : ascii) : bool :=
  let n := N_of_ascii c in
  ((9 <=? n) && (n <=? 13) || (n =? 32) || (n =? 160))%N.

Fixpoint drop_ws (l : list ascii) : list ascii :=
  match l with
  | c :: t => if is_ws c then drop_ws t else l
  | [] => []
  end.

Definition trim (l : list ascii) : list ascii :=
  rev (drop_ws (rev (drop_ws l))).

Fixpoint read_digits (l : list ascii) : list ascii * list ascii :=
  match l with
  | c :: t =>
      match digit_val c with
      | Some _ => let (ds, r) := read_digits t in (c :: ds, r)
      | None => ([], l)
      end
  | [] => ([], [])
  end.

(** ExponentPart, or nothing, up to the end of the string. *)
Definition parse_exponent (l : list ascii) : option Z :=
  match l with
  | [] => Some 0
  | c :: t =>
      if Ascii.eqb c "e" || Ascii.eqb c "E" then
        let '(neg, u) := match t with
                         | s :: u =>
                             if Ascii.eqb s "-" then (true, u)
                             else if Ascii.eqb s "+" then (false, u)
                             else (false, t)
                         | [] => (false, t)
                         end in
        match read_digits u with
        | ((_ :: _) as ds, []) =>
            Some (if neg then - digits_value ds else digits_value ds)
        | _ => None
        end
      else None
  end.

Definition finite_or_zero (neg : bool) (z e : Z) : number :=
  match z with
  | Zpos m => Finite neg m e
  | _ => Zero neg
  end.

(** StrUnsignedDecimalLiteral without the Infinity case. *)
Definition parse_decimal (neg : bool) (l : list ascii) : number :=
  let (ip, r1) := read_digits l in
  let (fp, r2) := match r1 with
                  | c :: t => if Ascii.eqb c "." then read_digits t
                              else ([], r1)
                  | [] => ([], r1)
                  end in
  match ip ++ fp with
  | [] => NaN
  | ds =>
      match parse_exponent r2 with
      | None => NaN
      | Some x => finite_or_zero neg (digits_value ds)
                                 (x - Z.of_nat (List.length fp))
      end
  end.

Definition chars_eqb (a b : list ascii) : bool :=
  String.eqb (string_of_list_ascii a) (string_of_list_ascii b).

Definition parse_unsigned (neg : bool) (l : list ascii) : number :=
  if chars_eqb l (list_ascii_of_string "Infinity") then Infinity neg
  else parse_decimal neg l.

Definition parse_signed (l : list ascii) : number :=
  match l with
  | c :: t =>
      if Ascii.eqb c "+" then parse_unsigned false t
      else if Ascii.eqb c "-" then parse_unsigned true t
      else parse_unsigned false l
  | [] => parse_unsigned false l
  end.

(** NonDecimalIntegerLiteral: the digits after [0x], [0o] or [0b]. *)
Definition radix_digit (radix : Z) (c : ascii) : option Z :=
  let n := Z.of_N (N_of_ascii c) in
  let d := if (48 <=? n) && (n <=? 57) then n - 48
           else if (97 <=? n) && (n <=? 102) then n - 87
           else if (65 <=? n) && (n <=? 70) then n - 55
           else radix in
  if d <? radix then Some d else None.

Fixpoint radix_value (radix acc : Z) (l : list ascii) : option Z :=
  match l with
  | [] => Some acc
  | c :: t =>
      match radix_digit radix c with
      | Some d => radix_value radix (radix * acc + d) t
      | None => None
      end
  end.

Definition parse_radix (radix : Z) (l : list ascii) : number :=
  match l with
  | [] => NaN
  | _ => match radix_value radix 0 l with
         | Some z => num_of_Z z
         | None => NaN
         end
  end.

Definition radix_prefix (l : list ascii) : option (Z * list ascii) :=
  match l with
  | z :: c :: r =>
      if Ascii.eqb z "0" then
        if Ascii.eqb c "x" || Ascii.eqb c "X" then Some (16, r)
        else if Ascii.eqb c "o" || Ascii.eqb c "O" then Some (8, r)
        else if Ascii.eqb c "b" || Ascii.eqb c "B" then Some (2, r)
        else None
      else None
  | _ => None
  end.

Definition chars_to_num (l : list ascii) : number :=
  match trim l with
  | [] => Zero false
  | t => match radix_prefix t with
         | Some (radix, r) => parse_radix radix r
         | None => parse_signed t
         end
  end.

Definition string_to_num (s : string) : number :=
  chars_to_num (list_ascii_of_string s).

(** ** Values

    The primitive values a parsed CSV cell and the pipeline can hold.  With
    [dynamicTyping] PapaParse delivers numbers, booleans, [null] for an
    empty cell and strings; a column the row lacks reads as [undefined]. *)

Inductive value : Type :=
| VUndefined
| VNull
| VBool (b : bool)
| VNum (n : number)
| VStr (s : string).

Definition ToBoolean (v : value) : bool :=
  match v with
  | VUndefined | VNull => false
  | VBool b => b
  | VNum n => negb (num_is_nan n || num_is_zero n)
  | VStr s => negb (String.eqb s "")
  end.

Definition ToNumber (v : value) : number :=
  match v with
  | VUndefined => NaN
  | VNull => Zero false
  | VBool true => Finite false 1 0
  | VBool false => Zero false
  | VNum n => n
  | VStr s => string_to_num s
  end.

Definition ToString (v : value) : string :=
  match v with
  | VUndefined => "undefined"
  | VNull => "null"
  | VBool true => "true"
  | VBool false => "false"
  | VNum n => num_to_string n
  | VStr s => s
  end.

(** [Number(v)] *)
Definition Number (v : value) : value := VNum (ToNumber v).

(** [a || b] and [a && b] *)
Definition js_or (a b : value) : value := if ToBoolean a then a else b.
Definition js_and (a b : value) : value := if ToBoolean a then b else a.

(** [a === b] *)
Definition strict_equal (a b : value) : bool :=
  match a, b with
  | VUndefined, VUndefined => true
  | VNull, VNull => true
  | VBool x, VBool y => Bool.eqb x y
  | VNum x, VNum y => num_eqb x y
  | VStr x, VStr y => String.eqb x y
  | _, _ => false
  end.

Definition js_seq (a b : value) : value := VBool (strict_equal a b).

(** [a + b], [a - b], [a * b], [a / b] *)
Definition js_add (a b : value) : value :=
  match a, b with
  | VStr _, _ | _, VStr _ => VStr (ToString a ++ ToString b)
  | _, _ => VNum (num_add (ToNumber a) (ToNumber b))
  end.

Definition js_sub (a b : value) : value :=
  VNum (num_sub (ToNumber a) (ToNumber b)).

Definition js_mul (a b : value) : value :=
  VNum (num_mul (ToNumber a) (ToNumber b)).

Definition js_div (a b : value) : value :=
  VNum (num_div (ToNumber a) (ToNumber b)).

(** ** Objects

    An ordinary object with string keys: its own properties in creation
    order.  Reading a missing property gives [undefined]; assigning to an
    existing property keeps its place. *)

Definition object : Type := list (string * value).

Fixpoint obj_get (o : object) (k : string) : value :=
  match o with
  | [] => VUndefined
  | (k', v) :: t => if String.eqb k' k then v else obj_get t k
  end.

Fixpoint obj_set (o : object) (k : string) (v : value) : object :=
  match o with
  | [] => [(k, v)]
  | (k', v') :: t =>
      if String.eqb k' k then (k', v) :: t else (k', v') :: obj_set t k v
  end.

(** An array index is a canonical numeric string below [2^32 - 1]. *)
Definition array_index (k : string) : option Z :=
  match read_digits (list_ascii_of_string k) with
  | ((_ :: _) as ds, []) =>
      let v := digits_value ds in
      if chars_eqb (digits v) ds && (v <? 2 ^ 32 - 1) then Some v else None
  | _ => None
  end.

Definition is_array_index (k : string) : bool :=
  match array_index k with Some _ => true | None => false end.

(** ** Arrays *)

(** A stable insertion sort: [after a b] says that [a] must come after
    [b]; elements that need not be exchanged keep their order. *)
Section Sort.
Variable A : Type.
Variable after : A -> A -> bool.

Fixpoint insert (x : A) (l : list A) : list A :=
  match l with
  | [] => [x]
  | y :: t => if after x y then y :: insert x t else x :: y :: t
  end.

Definition isort (l : list A) : list A := fold_right insert [] l.
End Sort.

(** [arr.sort(cmp)]: the sort is stable, and [cmp a b > 0] puts [a] after
    [b]; a NaN result counts as [0].  The order the standard leaves to the
    implementation, for a comparator that is not consistent, is taken to be
    that of the insertion sort. *)
Definition js_sort (A : Type) (cmp : A -> A -> value) (l : list A) : list A :=
  isort (fun a b => num_ltb (Zero false) (ToNumber (cmp a b))) l.

(** [arr.sort()]: [undefined] last, the rest by the code units of
    [ToString]. *)
Definition default_after (a b : value) : bool :=
  match a, b with
  | VUndefined, VUndefined => false
  | VUndefined, _ => true
  | _, VUndefined => false
  | _, _ => String.ltb (ToString b) (ToString a)
  end.

Definition js_sort_default (l : list value) : list value :=
  isort default_after l.

(** [arr.filter(f)] *)
Definition array_filter (A : Type) (f : A -> value) (l : list A) : list A :=
  filter (fun x => ToBoolean (f x)) l.

(** [Object.entries(o)]: the array indices in ascending numeric order, then
    the other keys in creation order. *)
Definition entry_index (kv : string * value) : Z :=
  match array_index (fst kv) with Some i => i | None => 0 end.

Definition Object_entries (o : object) : list (string * value) :=
  isort (fun a b => entry_index b <? entry_index a)
        (filter (fun kv => is_array_index (fst kv)) o)
  ++ filter (fun kv => negb (is_array_index (fst kv))) o.

(** [Array.from(new Set(arr))]: the first occurrence of each value under
    SameValueZero, in order; [-0] is stored as [+0]. *)
Definition SameValueZero (a b : value) : bool :=
  match a, b with
  | VNum x, VNum y => num_is_nan x && num_is_nan y || num_eqb x y
  | _, _ => strict_equal a b
  end.

Definition set_add (s : list value) (v : value) : list value :=
  if existsb (SameValueZero v) s then s
  else s ++ [match v with VNum (Zero _) => VNum (Zero false) | _ => v end].

Definition Set_of (l : list value) : list value := fold_left set_add l [].

End JS.

(** * The pipeline of [App] *)

Module App.

Import JS.
Local Open Scope string_scope.

(** A row of [results.data]: an object keyed by the CSV header. *)
Definition RawRow : Type := object.

Record Car : Type := {
  year : value;
  state : value;
  make : value;
  model : value;
  vehicle_type : value;
  battery_capacity_kwh : value
}.

Record Filters : Type := { f_year : value; f_state : value }.

(** The initial state of [filters]. *)
Definition all_filters : Filters :=
  {| f_year := VStr "All"; f_state := VStr "All" |}.

(** The callback of [raw.map] in [data]. *)
Definition clean_row (r : RawRow) : Car :=
  {| year := js_or (Number (obj_get r "Model Year")) VNull;
     state := js_or (obj_get r "State") (VStr "Unknown");
     make := js_or (obj_get r "Make") (VStr "Unknown");
     model := js_or (obj_get r "Model") (VStr "Unknown");
     vehicle_type := js_or (obj_get r "Electric Vehicle Type") (VStr "Other");
     battery_capacity_kwh :=
       js_or (Number (obj_get r "Electric Range")) (VNum (Zero false)) |}.

(** [data]; [raw] is [null] until the file is loaded. *)
Definition data (raw : option (list RawRow)) : list Car :=
  match raw with
  | None => []
  | Some rows => array_filter year (map clean_row rows)
  end.

(** The callback of [data.filter] in [filteredData]. *)
Definition keep (filters : Filters) (d : Car) : value :=
  js_and
    (js_or (js_seq (f_year filters) (VStr "All"))
           (js_seq (year d) (Number (f_year filters))))
    (js_or (js_seq (f_state filters) (VStr "All"))
           (js_seq (state d) (f_state filters))).

Definition filteredData (data : list Car) (filters : Filters) : list Car :=
  array_filter (keep filters) data.

(** The KPIs.  [now] is [new Date().getFullYear()]. *)
Definition total (filteredData : list Car) : value :=
  VNum (num_of_nat (List.length filteredData)).

Definition thisYear (now : value) (filteredData : list Car) : value :=
  VNum (num_of_nat
          (List.length (array_filter (fun d => js_seq (year d) now)
                                     filteredData))).

Definition avgBattery (filteredData : list Car) : value :=
  js_div
    (VNum (Math_round (ToNumber
       (js_mul
          (js_div
             (fold_left (fun s d => js_add s (battery_capacity_kwh d))
                        filteredData (VNum (Zero false)))
             (VNum (Math_max (Finite false 1 0)
                             (num_of_nat (List.length filteredData)))))
          (VNum (Finite false 100 0))))))
    (VNum (Finite false 100 0)).

(** The grouping loop shared by the three charts:
    [forEach(d => { map[key] = (map[key] || 0) + 1; })] from [{}]. *)
Definition count_step (key : Car -> value) (map : object) (d : Car) : object :=
  let k := ToString (key d) in
  obj_set map k (js_add (js_or (obj_get map k) (VNum (Zero false)))
                        (VNum (Finite false 1 0))).

Definition count_by (key : Car -> value) (filteredData : list Car) : object :=
  fold_left (count_step key) filteredData [].

Record YearCount : Type := { yc_year : value; yc_count : value }.
Record StateCount : Type := { sc_state : value; sc_count : value }.
Record TypeCount : Type := { tc_type : value; tc_value : value }.

Definition yearly (filteredData : list Car) : list YearCount :=
  js_sort (fun a b => js_sub (yc_year a) (yc_year b))
    (map (fun '(year, count) =>
            {| yc_year := Number (VStr year); yc_count := count |})
         (Object_entries (count_by year filteredData))).

Definition topStates (filteredData : list Car) : list StateCount :=
  firstn 10
    (js_sort (fun a b => js_sub (sc_count b) (sc_count a))
       (map (fun '(state, count) =>
               {| sc_state := VStr state; sc_count := count |})
            (Object_entries (count_by state filteredData)))).

Definition vehicleTypes (filteredData : list Car) : list TypeCount :=
  map (fun '(type, value) => {| tc_type := VStr type; tc_value := value |})
      (Object_entries (count_by vehicle_type filteredData)).

(** The options of the two dropdowns. *)
Definition years (data : list Car) : list value :=
  VStr "All" :: js_sort (fun a b => js_sub a b) (Set_of (map year data)).

Definition states (data : list Car) : list value :=
  VStr "All" :: js_sort_default (Set_of (map state data)).

(** What one render of [App] computes once the file is loaded. *)
Record View : Type := {
  v_data : list Car;
  v_filteredData : list Car;
  v_total : value;
  v_thisYear : value;
  v_avgBattery : value;
  v_yearly : list YearCount;
  v_topStates : list StateCount;
  v_vehicleTypes : list TypeCount;
  v_years : list value;
  v_states : list value
}.

Definition render (raw : option (list RawRow)) (filters : Filters)
    (now : value) : View :=
  let data := data raw in
  let filteredData := filteredData data filters in
  {| v_data := data;
     v_filteredData := filteredData;
     v_total := total filteredData;
     v_thisYear := thisYear now filteredData;
     v_avgBattery := avgBattery filteredData;
     v_yearly := yearly filteredData;
     v_topStates := topStates filteredData;
     v_vehicleTypes := vehicleTypes filteredData;
     v_years := years data;
     v_states := states data |}.

(** ** The rest of the component *)

(** The change handlers of the two dropdowns,
    [setFilters(f => ({...f, year: e.target.value}))] and its twin. *)
Definition select_year (target_value : value) (f : Filters) : Filters :=
  {| f_year := target_value; f_state := f_state f |}.

Definition select_state (target_value : value) (f : Filters) : Filters :=
  {| f_year := f_year f; f_state := target_value |}.

(** [e.target.value] when the option [<option value={v}>{v}</option>] is
    chosen: the DOM keeps the attribute as a string; for [null] and
    [undefined] no attribute is set and the value is the text of the option,
    which is empty. *)
Definition option_value (v : value) : value :=
  match v with
  | VUndefined | VNull => VStr ""
  | _ => VStr (ToString v)
  end.

(** The colours of the pie chart, and [COLORS[index % COLORS.length]]. *)
Definition COLORS : list string :=
  ["#0088FE"; "#00C49F"; "#FFBB28"; "#FF8042"; "#A020F0"; "#FF6384"].

Definition cell_fill (index : nat) : value :=
  match nth_error COLORS (index mod List.length COLORS) with
  | Some c => VStr c
  | None => VUndefined
  end.

(** [arr.map((x, index) => f(x, index))] *)
Fixpoint array_map_index (A B : Type) (f : A -> nat -> B) (index : nat)
    (l : list A) : list B :=
  match l with
  | [] => []
  | x :: t => f x index :: array_map_index f (S index) t
  end.

Record Cell : Type := { cell_key : value; fill : value }.

(** [vehicleTypes.map((entry, index) => <Cell key=... fill=.../>)] *)
Definition pie_cells (vehicleTypes : list TypeCount) : list Cell :=
  array_map_index
    (fun entry index => {| cell_key := tc_type entry; fill := cell_fill index |})
    0 vehicleTypes.

(** The state of [useDataLoader]: [raw], [loading] and [error], and the two
    callbacks handed to [Papa.parse]. *)
Record LoaderState : Type := {
  l_raw : option (list RawRow);
  l_loading : bool;
  l_error : value
}.

Definition loader_initial : LoaderState :=
  {| l_raw := None; l_loading := true; l_error := VNull |}.

Inductive Callback : Type :=
| complete (results_data : list RawRow)
| error (err_message : string).

Definition loader_step (s : LoaderState) (c : Callback) : LoaderState :=
  match c with
  | complete results_data =>
      {| l_raw := Some results_data; l_loading := false;
         l_error := l_error s |}
  | error err_message =>
      {| l_raw := l_raw s; l_loading := false;
         l_error := VStr err_message |}
  end.

Definition loader_run (cs : list Callback) : LoaderState :=
  fold_left loader_step cs loader_initial.

(** What [App] returns: the two early returns, or the dashboard. *)
Inductive Screen : Type :=
| LoadingScreen
| ErrorScreen (message : value)
| Dashboard (view : View).

Definition App_component (loader : LoaderState) (filters : Filters)
    (now : value) : Screen :=
  if l_loading loader then LoadingScreen
  else if ToBoolean (l_error loader) then ErrorScreen (l_error loader)
  else Dashboard (render (l_raw loader) filters now).

End App.

(** * Notions the properties are stated with *)

Module Spec.

Import JS App.
Local Open Scope string_scope.
Local Open Scope list_scope.

(** [subseq l1 l2]: [l1] is [l2] with some elements left out. *)
Inductive subseq (A : Type) : list A -> list A -> Prop :=
| subseq_nil : subseq [] []
| subseq_skip x l1 l2 : subseq l1 l2 -> subseq l1 (x :: l2)
| subseq_take x l1 l2 : subseq l1 l2 -> subseq (x :: l1) (x :: l2).

(** [precedes a b l]: some occurrence of [a] in [l] is followed, later, by
    an occurrence of [b]. *)
Definition precedes (A : Type) (a b : A) (l : list A) : Prop :=
  exists l1 l2 l3, l = l1 ++ a :: l2 ++ b :: l3.

(** A value is truthy and a number: neither NaN nor a zero. *)
Definition truthy_number (v : value) : Prop :=
  exists n, v = VNum n /\ num_is_nan n = false /\ num_is_zero n = false.

(** The selection rule of the filter, in the words of the specification:
    keep a record iff (selection.year is "All" or the record's year equals
    the numeric value of selection.year) and (selection.state is "All" or
    the record's state equals selection.state). *)
Definition selected (filters : Filters) (d : Car) : bool :=
  (strict_equal (f_year filters) (VStr "All")
   || strict_equal (year d) (Number (f_year filters)))
  && (strict_equal (f_state filters) (VStr "All")
      || strict_equal (state d) (f_state filters)).

(** The number line with its two infinite ends, as a target for [rank]. *)
Inductive ext : Type := NegInf | Fin (z : Z) | PosInf.

Definition ext_compare (a b : ext) : comparison :=
  match a, b with
  | NegInf, NegInf => Eq
  | NegInf, _ => Lt
  | _, NegInf => Gt
  | PosInf, PosInf => Eq
  | PosInf, _ => Gt
  | _, PosInf => Lt
  | Fin x, Fin y => Z.compare x y
  end.

(** The place of a number on that line, in units of [10^e0]. *)
Definition rank (e0 : Z) (x : number) : ext :=
  match x with
  | NaN => Fin 0
  | Infinity true => NegInf
  | Infinity false => PosInf
  | Zero _ => Fin 0
  | Finite s m e => Fin (scale (signed s m) e e0)
  end.

Definition exponent (x : number) : Z :=
  match x with Finite _ _ e => e | _ => 0%Z end.

(** A unit that suits three numbers at once. *)
Definition unit3 (x y z : number) : Z :=
  Z.min (exponent x) (Z.min (exponent y) (exponent z)).

Definition is_digit (c : ascii) : bool :=
  match digit_val c with Some _ => true | None => false end.

(** The characters a printed finite number is made of. *)
Definition num_char (c : ascii) : bool :=
  is_digit c || Ascii.eqb c "." || Ascii.eqb c "e" || Ascii.eqb c "+"
  || Ascii.eqb c "-".

(** What may follow the digits of a literal: nothing, or an exponent. *)
Definition exp_start (l : list ascii) : Prop :=
  match l with [] => True | c :: _ => c = "e"%char end.

(** Counting per key on natural numbers: what the grouping loop computes,
    without the JavaScript values. *)
Fixpoint lookup (t : list (string * nat)) (k : string) : nat :=
  match t with
  | [] => 0
  | (k', n) :: r => if String.eqb k' k then n else lookup r k
  end.

Fixpoint tally_add (t : list (string * nat)) (k : string)
  : list (string * nat) :=
  match t with
  | [] => [(k, 1)]
  | (k', n) :: r =>
      if String.eqb k' k then (k', S n) :: r else (k', n) :: tally_add r k
  end.

Definition tally (ks : list string) : list (string * nat) :=
  fold_left tally_add ks [].

Definition count_value (n : nat) : value := VNum (num_of_nat n).

Definition as_object (t : list (string * nat)) : object :=
  map (fun kn => (fst kn, count_value (snd kn))) t.

(** The distinct keys of a list, each at its first occurrence. *)
Fixpoint firsts (ks : list string) : list string :=
  match ks with
  | [] => []
  | k :: r => k :: filter (fun x => negb (String.eqb x k)) (firsts r)
  end.


(** The keys the grouping loop of a chart sees, in order. *)
Definition keys_of (key : Car -> value) (filteredData : list Car)
  : list string :=
  map (fun d => ToString (key d)) filteredData.





(** The same number: both NaN, or equal on the number line. *)
Definition same_number (x y : number) : bool :=
  match x, y with
  | NaN, NaN => true
  | _, _ => num_eqb x y
  end.

(** The entries of the two sorted charts, and how they are compared. *)
Definition year_entry (kv : string * value) : YearCount :=
  {| yc_year := Number (VStr (fst kv)); yc_count := snd kv |}.


Definition year_text (e : YearCount) : string := ToString (yc_year e).

Definition year_lt (a b : YearCount) : Prop :=
  num_ltb (ToNumber (yc_year a)) (ToNumber (yc_year b)) = true.



Definition numeric_year (e : YearCount) : Prop :=
  exists y, yc_year e = VNum y /\ num_is_nan y = false.

(** The comparators of the two sorted charts, as [js_sort] reads them. *)
Definition year_after (a b : YearCount) : bool :=
  num_ltb (Zero false) (ToNumber (js_sub (yc_year a) (yc_year b))).


(** A text that identifies a value up to SameValueZero. *)
Definition svz_key (v : value) : string :=
  match v with
  | VUndefined => "u"
  | VNull => "0"
  | VBool true => "t"
  | VBool false => "f"
  | VNum n => String "n" (num_to_string n)
  | VStr s => String "s" s
  end.

(** What a [Set] stores for a value. *)
Definition stored (v : value) : value :=
  match v with VNum (Zero _) => VNum (Zero false) | _ => v end.

(** The orders of the two option lists. *)
Definition value_lt (a b : value) : Prop :=
  num_ltb (ToNumber a) (ToNumber b) = true.

Definition text_le (a b : value) : Prop :=
  String.leb (ToString a) (ToString b) = true.

Definition numeric (v : value) : Prop :=
  exists y, v = VNum y /\ num_is_nan y = false.

Definition number_after (a b : value) : bool :=
  num_ltb (Zero false) (ToNumber (js_sub a b)).

(** How often a key occurs. *)
Definition occurrences (k : string) (ks : list string) : nat :=
  List.length (filter (String.eqb k) ks).

(** The number of records whose grouping key is [k]. *)
Definition records_with (key : Car -> value) (k : string)
    (filteredData : list Car) : nat :=
  List.length (filter (fun d => String.eqb k (ToString (key d))) filteredData).

(** The number of records whose year [===] a value. *)
Definition records_of_year (y : value) (filteredData : list Car) : nat :=
  List.length (filter (fun d => strict_equal (year d) y) filteredData).

Definition type_entry (kv : string * value) : TypeCount :=
  {| tc_type := VStr (fst kv); tc_value := snd kv |}.

Definition type_key (e : TypeCount) : string := ToString (tc_type e).

(** The callbacks that report a failure with a non-empty message. *)
Definition is_failure (c : Callback) : bool :=
  match c with
  | error err_message => negb (String.eqb err_message "")
  | complete _ => false
  end.

(** The test [r => r.year] of the cleaning step, on the raw row. *)
Definition year_parses (r : RawRow) : bool :=
  ToBoolean (Number (obj_get r "Model Year")).

End Spec.

(** * Sample inputs *)

Module Samples.

Import JS App.
Local Open Scope string_scope.
Local Open Scope list_scope.

Definition row (model_year state range : value) : RawRow :=
  [("Model Year", model_year); ("State", state); ("Make", VStr "TESLA");
   ("Model", VStr "MODEL 3");
   ("Electric Vehicle Type", VStr "Battery Electric Vehicle (BEV)");
   ("Electric Range", range)].

Definition int (z : Z) : value := VNum (num_of_Z z).

(** A cell [-5] in the range column. *)
Definition negative_range_rows : list RawRow :=
  [row (int 2020) (VStr "WA") (int (-5))].

(** A cell [2020.5] in the year column. *)
Definition fractional_year_rows : list RawRow :=
  [row (VNum (Finite false 20205 (-1))) (VStr "WA") (int 150)].


(** The first scenario of the specification: two rows of 2020 and one row
    with a malformed year. *)
Definition scenario_rows : list RawRow :=
  [row (int 2020) (VStr "WA") (VStr "150"); row (int 2020) (VStr "CA") VNull;
   row (VStr "bad") (VStr "WA") (int 10)].

End Samples.

(** * Properties *)

Import JS App Spec Samples.
Local Open Scope string_scope.
Local Open Scope list_scope.

(** ** Lists *)

Section ListFacts.
Variable A : Type.

Lemma subseq_refl (l : list A) : subseq l l.
Proof. induction l; constructor; assumption. Qed.

Lemma subseq_filter (p : A -> bool) (l : list A) : subseq (filter p l) l.
Proof.
  induction l as [|x l IH]; simpl.
  - constructor.
  - destruct (p x); constructor; assumption.
Qed.

Lemma subseq_In (l1 l2 : list A) :
  subseq l1 l2 -> forall x, In x l1 -> In x l2.
Proof.
  induction 1; simpl; intros y Hy; auto.
  destruct Hy; auto.
Qed.

Lemma subseq_length (l1 l2 : list A) :
  subseq l1 l2 -> (List.length l1 <= List.length l2)%nat.
Proof. induction 1; simpl; lia. Qed.

Lemma precedes_cons (a b x : A) (l : list A) :
  precedes a b l -> precedes a b (x :: l).
Proof.
  intros (l1 & l2 & l3 & ->). exists (x :: l1), l2, l3. reflexivity.
Qed.

Lemma precedes_head (a b : A) (l : list A) :
  In b l -> precedes a b (a :: l).
Proof.
  intros Hb. apply in_split in Hb as (l2 & l3 & ->).
  exists [], l2, l3. reflexivity.
Qed.

Lemma precedes_inv (a b x : A) (l : list A) :
  precedes a b (x :: l) -> (x = a /\ In b l) \/ precedes a b l.
Proof.
  intros (l1 & l2 & l3 & E). destruct l1 as [|y l1]; simpl in E.
  - injection E as -> ->. left. split; [reflexivity|].
    apply in_or_app. right. left. reflexivity.
  - injection E as -> ->. right. exists l1, l2, l3. reflexivity.
Qed.

Lemma precedes_In (a b : A) (l : list A) :
  precedes a b l -> In a l /\ In b l.
Proof.
  intros (l1 & l2 & l3 & ->). split.
  - apply in_or_app. right. left. reflexivity.
  - apply in_or_app. right. right. apply in_or_app. right. left.
    reflexivity.
Qed.

Lemma subseq_precedes (l1 l2 : list A) :
  subseq l1 l2 -> forall a b, precedes a b l1 -> precedes a b l2.
Proof.
  induction 1 as [|x l1 l2 H IH|x l1 l2 H IH]; intros a b P.
  - exact P.
  - apply precedes_cons. apply IH. exact P.
  - apply precedes_inv in P as [[-> Hb]|P].
    + apply precedes_head. eapply subseq_In; eauto.
    + apply precedes_cons. apply IH. exact P.
Qed.
End ListFacts.

(** ** Truth values and equality *)

Lemma ToBoolean_js_seq (a b : value) :
  ToBoolean (js_seq a b) = strict_equal a b.
Proof. reflexivity. Qed.

Lemma ToBoolean_or_bool (a : bool) (v : value) :
  ToBoolean (js_or (VBool a) v) = a || ToBoolean v.
Proof. unfold js_or; simpl. destruct a; reflexivity. Qed.

Lemma ToBoolean_and (a b : value) :
  ToBoolean (js_and a b) = ToBoolean a && ToBoolean b.
Proof. unfold js_and. destruct (ToBoolean a) eqn:E; simpl; auto. Qed.

Lemma keep_selected (filters : Filters) (d : Car) :
  ToBoolean (keep filters d) = selected filters d.
Proof.
  unfold keep, selected, js_seq.
  rewrite ToBoolean_and, !ToBoolean_or_bool. reflexivity.
Qed.

Lemma strict_equal_All (v : value) :
  strict_equal v (VStr "All") = true <-> v = VStr "All".
Proof.
  destruct v; simpl; split; try discriminate.
  - intros H. apply String.eqb_eq in H. congruence.
  - intros H. injection H as ->. reflexivity.
Qed.

Lemma ToBoolean_Number (v : value) :
  ToBoolean (Number v) = true <->
  num_is_nan (ToNumber v) = false /\ num_is_zero (ToNumber v) = false.
Proof.
  unfold Number; simpl. rewrite negb_true_iff, orb_false_iff. tauto.
Qed.

Lemma js_or_truthy (a b : value) :
  ToBoolean b = true -> ToBoolean (js_or a b) = true.
Proof. unfold js_or. destruct (ToBoolean a) eqn:E; auto. Qed.

Lemma truthy_not_empty (v : value) : ToBoolean v = true -> v <> VStr "".
Proof. intros H ->. discriminate. Qed.

(** ** The cleaning step *)

Lemma clean_row_year_test (r : RawRow) :
  ToBoolean (year (clean_row r)) = year_parses r.
Proof.
  unfold year_parses, clean_row, year, js_or.
  destruct (ToBoolean (Number (obj_get r "Model Year"))) eqn:E.
  - exact E.
  - reflexivity.
Qed.

Lemma data_filter_map (rows : list RawRow) :
  data (Some rows) = map clean_row (filter year_parses rows).
Proof.
  unfold data, array_filter.
  induction rows as [|r rows IH]; [reflexivity|].
  cbn [map filter]. rewrite clean_row_year_test, IH.
  destruct (year_parses r); reflexivity.
Qed.

Lemma clean_row_year (r : RawRow) :
  year_parses r = true -> year (clean_row r) = Number (obj_get r "Model Year").
Proof.
  unfold year_parses, clean_row, year, js_or. intros H. rewrite H.
  reflexivity.
Qed.

Lemma data_In (raw : option (list RawRow)) (d : Car) :
  In d (data raw) ->
  exists rows r, raw = Some rows /\ In r rows /\ year_parses r = true /\
                 d = clean_row r.
Proof.
  destruct raw as [rows|]; [|intros []].
  rewrite data_filter_map. intros H.
  apply in_map_iff in H as (r & <- & Hr).
  apply filter_In in Hr as [Hr Hp]. eauto 6.
Qed.

Lemma data_year_truthy (raw : option (list RawRow)) (d : Car) :
  In d (data raw) -> truthy_number (year d).
Proof.
  intros H. apply data_In in H as (rows & r & _ & _ & Hp & ->).
  rewrite (clean_row_year _ Hp).
  apply ToBoolean_Number in Hp as [Hn Hz].
  exists (ToNumber (obj_get r "Model Year")). auto.
Qed.

(** ** The order of numbers *)

Section NumberOrder.
Local Open Scope Z_scope.

Lemma pow10_pos (k : Z) : 0 <= k -> 0 < 10 ^ k.
Proof. intros H. apply Z.pow_pos_nonneg; lia. Qed.

Lemma scale_shift (z e e1 e0 : Z) :
  e0 <= e1 -> e1 <= e -> scale z e e0 = scale z e e1 * 10 ^ (e1 - e0).
Proof.
  intros H0 H1. unfold scale.
  replace (e - e0) with ((e - e1) + (e1 - e0)) by lia.
  rewrite Z.pow_add_r by lia. ring.
Qed.

Lemma scale_same (z e : Z) : scale z e e = z.
Proof. unfold scale. rewrite Z.sub_diag. simpl. lia. Qed.

Lemma scale_opp (z e e0 : Z) : scale (- z) e e0 = - scale z e e0.
Proof. unfold scale. ring. Qed.

Lemma scale_signed_pos (m : positive) (e e0 : Z) :
  e0 <= e -> 0 < scale (Zpos m) e e0.
Proof.
  intros H. unfold scale. apply Z.mul_pos_pos; [lia|].
  apply pow10_pos. lia.
Qed.

Lemma signed_negb (s : bool) (m : positive) :
  signed (negb s) m = - signed s m.
Proof. destruct s; reflexivity. Qed.

Lemma scale_signed (s : bool) (m : positive) (e e0 : Z) :
  scale (signed s m) e e0 =
  if s then - scale (Zpos m) e e0 else scale (Zpos m) e e0.
Proof.
  destruct s; unfold signed; [|reflexivity].
  change (Zneg m) with (- Zpos m). apply scale_opp.
Qed.

Lemma scale_compare (a b e1 e2 e0 : Z) :
  e0 <= e1 -> e0 <= e2 ->
  (scale a e1 (Z.min e1 e2) ?= scale b e2 (Z.min e1 e2)) =
  (scale a e1 e0 ?= scale b e2 e0).
Proof.
  intros H1 H2.
  rewrite (@scale_shift a e1 (Z.min e1 e2) e0) by lia.
  rewrite (@scale_shift b e2 (Z.min e1 e2) e0) by lia.
  apply Zmult_compare_compat_r.
  apply Z.lt_gt, pow10_pos. lia.
Qed.

Lemma compare_rank (e0 : Z) (x y : number) :
  num_is_nan x = false -> num_is_nan y = false ->
  e0 <= exponent x -> e0 <= exponent y ->
  num_compare x y = Some (ext_compare (rank e0 x) (rank e0 y)).
Proof.
  destruct x as [|sx|sx|sx mx ex], y as [|sy|sy|sy my ey];
    cbn [num_is_nan exponent num_compare rank ext_compare];
    try discriminate; intros _ _ Hx Hy.
  - destruct sx, sy; reflexivity.
  - destruct sx; reflexivity.
  - destruct sx; reflexivity.
  - destruct sy; reflexivity.
  - reflexivity.
  - f_equal. rewrite scale_signed.
    pose proof (@scale_signed_pos my ey e0 Hy).
    destruct sy; symmetry.
    + apply Z.compare_gt_iff. lia.
    + apply Z.compare_lt_iff. lia.
  - destruct sy; reflexivity.
  - f_equal. rewrite scale_signed.
    pose proof (@scale_signed_pos mx ex e0 Hx).
    destruct sx; symmetry.
    + apply Z.compare_lt_iff. lia.
    + apply Z.compare_gt_iff. lia.
  - f_equal. apply scale_compare; assumption.
Qed.

Lemma ext_compare_refl (a : ext) : ext_compare a a = Eq.
Proof. destruct a; simpl; auto using Z.compare_refl. Qed.

Lemma ext_compare_antisym (a b : ext) :
  ext_compare b a = CompOpp (ext_compare a b).
Proof. destruct a, b; simpl; auto using Z.compare_antisym. Qed.

Lemma ext_compare_eq_trans (a b c : ext) :
  ext_compare a b = Eq -> ext_compare b c = Eq -> ext_compare a c = Eq.
Proof.
  destruct a, b, c; simpl; try discriminate; auto.
  rewrite !Z.compare_eq_iff. congruence.
Qed.

Lemma ext_compare_le_trans (a b c : ext) :
  ext_compare a b <> Gt -> ext_compare b c <> Gt -> ext_compare a c <> Gt.
Proof.
  destruct a, b, c; simpl; try discriminate; try congruence.
  rewrite !Z.compare_le_iff. lia.
Qed.

Lemma num_compare_nan (x y : number) :
  num_compare x y = None <-> num_is_nan x = true \/ num_is_nan y = true.
Proof.
  destruct x as [|[]|[]|[] ? ?], y as [|[]|[]|[] ? ?]; simpl;
    intuition discriminate.
Qed.

Lemma num_compare_antisym (x y : number) :
  num_compare y x = option_map CompOpp (num_compare x y).
Proof.
  destruct (num_is_nan x) eqn:Hx.
  { destruct x; try discriminate. destruct y; reflexivity. }
  destruct (num_is_nan y) eqn:Hy.
  { destruct y; try discriminate. destruct x; reflexivity. }
  rewrite (@compare_rank (unit3 x y y) x y),
          (@compare_rank (unit3 x y y) y x); unfold unit3; try lia; auto.
  simpl. f_equal. apply ext_compare_antisym.
Qed.

Lemma num_eqb_refl (x : number) : num_is_nan x = false -> num_eqb x x = true.
Proof.
  intros H. unfold num_eqb.
  rewrite (@compare_rank (exponent x) x x), ext_compare_refl; auto; lia.
Qed.

Lemma num_eqb_sym (x y : number) : num_eqb x y = num_eqb y x.
Proof.
  unfold num_eqb. rewrite (num_compare_antisym x y).
  destruct (num_compare x y) as [[]|]; reflexivity.
Qed.

Lemma num_eqb_not_nan (x y : number) :
  num_eqb x y = true -> num_is_nan x = false /\ num_is_nan y = false.
Proof.
  unfold num_eqb. destruct (num_compare x y) eqn:E; [|discriminate].
  intros _. destruct (num_is_nan x) eqn:Hx, (num_is_nan y) eqn:Hy; auto;
    assert (N : num_compare x y = None) by (apply num_compare_nan; auto);
    congruence.
Qed.

Lemma num_eqb_trans (x y z : number) :
  num_eqb x y = true -> num_eqb y z = true -> num_eqb x z = true.
Proof.
  intros H1 H2.
  destruct (num_eqb_not_nan _ _ H1) as [Hx Hy].
  destruct (num_eqb_not_nan _ _ H2) as [_ Hz].
  revert H1 H2. unfold num_eqb.
  rewrite (@compare_rank (unit3 x y z) x y),
          (@compare_rank (unit3 x y z) y z),
          (@compare_rank (unit3 x y z) x z); unfold unit3; try lia; auto.
  destruct (ext_compare (rank _ x) (rank _ y)) eqn:E1; try discriminate.
  destruct (ext_compare (rank _ y) (rank _ z)) eqn:E2; try discriminate.
  rewrite (ext_compare_eq_trans _ _ _ E1 E2). reflexivity.
Qed.

(** [a <= b <= c] gives [a <= c], with [x <= y] read as "not [y < x]". *)
Lemma num_le_trans (a b c : number) :
  num_is_nan a = false -> num_is_nan b = false -> num_is_nan c = false ->
  num_ltb b a = false -> num_ltb c b = false -> num_ltb c a = false.
Proof.
  intros Ha Hb Hc. unfold num_ltb.
  rewrite (num_compare_antisym a b), (num_compare_antisym b c),
          (num_compare_antisym a c).
  rewrite (@compare_rank (unit3 a b c) a b),
          (@compare_rank (unit3 a b c) b c),
          (@compare_rank (unit3 a b c) a c); unfold unit3; try lia; auto.
  simpl. intros H1 H2.
  pose proof (@ext_compare_le_trans (rank (unit3 a b c) a)
                (rank (unit3 a b c) b) (rank (unit3 a b c) c)) as T.
  unfold unit3 in T.
  destruct (ext_compare (rank _ a) (rank _ b)); try discriminate;
    destruct (ext_compare (rank _ b) (rank _ c)); try discriminate;
    destruct (ext_compare (rank _ a) (rank _ c)); try reflexivity;
    exfalso; apply T; congruence.
Qed.

Lemma num_ltb_asym (a b : number) :
  num_ltb a b = true -> num_ltb b a = false.
Proof.
  unfold num_ltb. rewrite (num_compare_antisym a b).
  destruct (num_compare a b) as [[]|]; simpl; congruence.
Qed.

Lemma num_le_neq_lt (a b : number) :
  num_is_nan a = false -> num_is_nan b = false ->
  num_ltb b a = false -> num_eqb a b = false -> num_ltb a b = true.
Proof.
  intros Ha Hb. unfold num_ltb, num_eqb.
  rewrite (num_compare_antisym a b).
  destruct (num_compare a b) as [[]|] eqn:E; simpl; try congruence.
  apply num_compare_nan in E as [E|E]; congruence.
Qed.

Lemma num_ltb_zero_of_mantissa (z e : Z) :
  num_ltb (Zero false) (of_mantissa z e) = (0 <? z).
Proof. destruct z; reflexivity. Qed.

(** The comparator [(a, b) => a - b] orders like [<]. *)
Lemma num_sub_positive (x y : number) :
  num_ltb (Zero false) (num_sub x y) = num_ltb y x.
Proof.
  destruct x as [|sx|sx|sx mx ex], y as [|sy|sy|sy my ey];
    try reflexivity;
    try (destruct sx; reflexivity);
    try (destruct sy; reflexivity);
    try (destruct sx, sy; reflexivity).
  unfold num_sub, num_opp, num_add.
  rewrite num_ltb_zero_of_mantissa.
  unfold num_ltb, num_compare.
  rewrite signed_negb, scale_opp, (Z.min_comm ey ex).
  set (a := scale (signed sx mx) ex (Z.min ex ey)).
  set (b := scale (signed sy my) ey (Z.min ex ey)).
  clearbody a b.
  destruct (Z.compare_spec b a);
    [apply Z.ltb_ge | apply Z.ltb_lt | apply Z.ltb_ge]; lia.
Qed.
End NumberOrder.

(** ** The insertion sort *)

Section SortFacts.
Variable A : Type.
Variable after : A -> A -> bool.

Lemma insert_perm (x : A) (l : list A) :
  Permutation (insert after x l) (x :: l).
Proof.
  induction l as [|y t IH]; simpl.
  - apply Permutation_refl.
  - destruct (after x y).
    + eapply perm_trans; [apply perm_skip, IH|apply perm_swap].
    + apply Permutation_refl.
Qed.

Lemma isort_perm (l : list A) : Permutation (isort after l) l.
Proof.
  induction l as [|x l IH]; simpl.
  - apply perm_nil.
  - eapply perm_trans; [apply insert_perm|apply perm_skip, IH].
Qed.

Lemma isort_In (l : list A) (x : A) : In x (isort after l) <-> In x l.
Proof.
  split; apply Permutation_in;
    [apply isort_perm|apply Permutation_sym, isort_perm].
Qed.




Section Sorted.
Variable P : A -> Prop.
Hypothesis after_asym :
  forall a b, P a -> P b -> after a b = true -> after b a = false.
Hypothesis after_trans :
  forall a b c, P a -> P b -> P c ->
                after a b = false -> after b c = false -> after a c = false.

Lemma insert_sorted (x : A) (l : list A) :
  P x -> Forall P l ->
  StronglySorted (fun a b => after a b = false) l ->
  StronglySorted (fun a b => after a b = false) (insert after x l).
Proof.
  intros Px. induction l as [|y t IH]; intros Pl S; simpl.
  - constructor; constructor.
  - inversion Pl as [|? ? Py Pt]; subst.
    inversion S as [|? ? St Hy]; subst.
    destruct (after x y) eqn:E.
    + constructor; [apply IH; assumption|].
      apply Forall_forall. intros z Hz.
      apply (Permutation_in _ (insert_perm x t)) in Hz.
      destruct Hz as [<-|Hz].
      * apply after_asym; assumption.
      * rewrite Forall_forall in Hy. apply Hy, Hz.
    + constructor; [exact S|].
      constructor; [exact E|].
      rewrite Forall_forall in Hy, Pt. apply Forall_forall.
      intros z Hz. apply after_trans with y; auto.
Qed.

Lemma isort_sorted (l : list A) :
  Forall P l -> StronglySorted (fun a b => after a b = false) (isort after l).
Proof.
  induction l as [|x l IH]; intros Pl; simpl.
  - constructor.
  - inversion Pl; subst. apply insert_sorted; auto.
    eapply Permutation_Forall; [apply Permutation_sym, isort_perm|].
    assumption.
Qed.
End Sorted.
End SortFacts.

Section MoreListFacts.
Variable A : Type.




Lemma StronglySorted_precedes (R : A -> A -> Prop) (l : list A) :
  StronglySorted R l -> forall a b, precedes a b l -> R a b.
Proof.
  induction 1 as [|x l S IH F]; intros a b Pr.
  - destruct Pr as (l1 & ? & ? & E). destruct l1; discriminate.
  - apply precedes_inv in Pr as [[-> Hb]|Pr].
    + rewrite Forall_forall in F. apply F, Hb.
    + apply IH, Pr.
Qed.

End MoreListFacts.

(** ** Decimal digits *)

Section Digits.
Local Open Scope char_scope.
Local Open Scope Z_scope.

Lemma digit_val_char (d : Z) :
  0 <= d < 10 -> digit_val (digit_char d) = Some d.
Proof.
  intros H.
  assert (C : d = 0 \/ d = 1 \/ d = 2 \/ d = 3 \/ d = 4 \/ d = 5 \/ d = 6
              \/ d = 7 \/ d = 8 \/ d = 9) by lia.
  repeat destruct C as [->|C]; try subst d; reflexivity.
Qed.

Lemma digit_val_bound (c : ascii) (d : Z) :
  digit_val c = Some d -> 0 <= d < 10 /\ Z.of_N (N_of_ascii c) = 48 + d.
Proof.
  unfold digit_val.
  destruct ((48 <=? Z.of_N (N_of_ascii c))
            && (Z.of_N (N_of_ascii c) <=? 57)) eqn:E; [|discriminate].
  intros [= <-]. apply andb_true_iff in E as [E1 E2].
  apply Z.leb_le in E1, E2. lia.
Qed.

Lemma is_digit_char (d : Z) : 0 <= d < 10 -> is_digit (digit_char d) = true.
Proof. intros H. unfold is_digit. rewrite digit_val_char; auto. Qed.

Lemma is_digit_code (c : ascii) :
  is_digit c = true -> 48 <= Z.of_N (N_of_ascii c) <= 57.
Proof.
  unfold is_digit. destruct (digit_val c) eqn:E; [|discriminate].
  apply digit_val_bound in E. lia.
Qed.

Lemma is_digit_neq (c c' : ascii) :
  is_digit c = true -> is_digit c' = false -> Ascii.eqb c c' = false.
Proof.
  intros H H'. destruct (Ascii.eqb_spec c c'); [|reflexivity].
  congruence.
Qed.

Lemma fold_digit_step (l : list ascii) (a : Z) :
  fold_left digit_step l a =
  a * 10 ^ Z.of_nat (List.length l) + fold_left digit_step l 0.
Proof.
  revert a. induction l as [|c l IH]; intros a.
  - simpl. lia.
  - cbn [fold_left List.length]. rewrite IH, (IH (digit_step 0 c)).
    unfold digit_step. rewrite Nat2Z.inj_succ, Z.pow_succ_r by lia. ring.
Qed.

Lemma digits_value_app (a b : list ascii) :
  digits_value (a ++ b) =
  digits_value a * 10 ^ Z.of_nat (List.length b) + digits_value b.
Proof. unfold digits_value. rewrite fold_left_app. apply fold_digit_step. Qed.

Lemma digits_value_cons (c : ascii) (l : list ascii) (d : Z) :
  digit_val c = Some d ->
  digits_value (c :: l) = d * 10 ^ Z.of_nat (List.length l) + digits_value l.
Proof.
  intros H. unfold digits_value. cbn [fold_left].
  rewrite fold_digit_step. unfold digit_step. rewrite H. f_equal. 
Qed.

Lemma digits_value_zeros (j : nat) : digits_value (repeat "0" j) = 0.
Proof.
  induction j as [|j IH]; [reflexivity|].
  cbn [repeat]. rewrite (@digits_value_cons _ _ 0) by reflexivity.
  rewrite IH. lia.
Qed.

Lemma digits_fuel_app (fuel : nat) (z : Z) (acc : list ascii) :
  digits_fuel fuel z acc = digits_fuel fuel z [] ++ acc.
Proof.
  revert z acc. induction fuel as [|fuel IH]; intros z acc; [reflexivity|].
  cbn [digits_fuel]. destruct (z <? 10); [reflexivity|].
  rewrite IH, (IH _ [_]), <- app_assoc. reflexivity.
Qed.

Lemma digits_value_single (d : Z) :
  0 <= d < 10 -> digits_value [digit_char d] = d.
Proof.
  intros H. unfold digits_value. cbn [fold_left]. unfold digit_step.
  rewrite digit_val_char by exact H. lia.
Qed.

Lemma digits_fuel_spec (fuel : nat) (z : Z) :
  0 <= z < 2 ^ Z.of_nat (S fuel) ->
  digits_value (digits_fuel (S fuel) z []) = z
  /\ Forall (fun c => is_digit c = true) (digits_fuel (S fuel) z [])
  /\ digits_fuel (S fuel) z [] <> [].
Proof.
  revert z. induction fuel as [|fuel IH]; intros z Hz.
  - assert (z < 10) by (change (2 ^ Z.of_nat 1) with 2 in Hz; lia).
    cbn [digits_fuel]. destruct (Z.ltb_spec z 10); [|lia].
    rewrite Z.mod_small by lia. repeat split.
    + apply digits_value_single. lia.
    + constructor; [|constructor]. apply is_digit_char. lia.
    + discriminate.
  - remember (S fuel) as f eqn:Ef. cbn [digits_fuel].
    destruct (Z.ltb_spec z 10).
    + rewrite Z.mod_small by lia. repeat split.
      * apply digits_value_single. lia.
      * constructor; [|constructor]. apply is_digit_char. lia.
      * discriminate.
    + rewrite digits_fuel_app.
      assert (Hq : 0 <= z / 10 < 2 ^ Z.of_nat f).
      { split; [apply Z.div_pos; lia|].
        rewrite Nat2Z.inj_succ, Z.pow_succ_r in Hz by lia.
        apply Z.div_lt_upper_bound; lia. }
      subst f. destruct (IH _ Hq) as (V & F & N).
      repeat split.
      * rewrite digits_value_app, V.
        rewrite digits_value_single by (apply Z.mod_pos_bound; lia).
        change (10 ^ Z.of_nat (List.length [digit_char (z mod 10)]))
          with 10.
        pose proof (Z.div_mod z 10). lia.
      * apply Forall_app. split; [exact F|].
        constructor; [|constructor]. apply is_digit_char.
        apply Z.mod_pos_bound. lia.
      * intros E. apply app_eq_nil in E as [_ E]. discriminate.
Qed.

Lemma log2_fuel (z : Z) : 0 <= z -> z < 2 ^ Z.of_nat (S (Z.to_nat (Z.log2 z))).
Proof.
  intros H. rewrite Nat2Z.inj_succ, Z2Nat.id by apply Z.log2_nonneg.
  destruct (Z.eq_dec z 0) as [->|N]; [reflexivity|].
  apply Z.log2_spec. lia.
Qed.

Lemma digits_value_digits (z : Z) : 0 <= z -> digits_value (digits z) = z.
Proof. intros H. apply digits_fuel_spec. split; [lia|apply log2_fuel, H]. Qed.

Lemma digits_are_digits (z : Z) :
  0 <= z -> Forall (fun c => is_digit c = true) (digits z).
Proof. intros H. apply digits_fuel_spec. split; [lia|apply log2_fuel, H]. Qed.

Lemma digits_not_nil (z : Z) : 0 <= z -> digits z <> [].
Proof. intros H. apply digits_fuel_spec. split; [lia|apply log2_fuel, H]. Qed.

Lemma read_digits_app (ds rest : list ascii) :
  Forall (fun c => is_digit c = true) ds ->
  match rest with [] => True | c :: _ => is_digit c = false end ->
  read_digits (ds ++ rest) = (ds, rest).
Proof.
  intros F R. induction F as [|c ds Hc F IH]; simpl.
  - destruct rest as [|c t]; [reflexivity|]. simpl.
    unfold is_digit in R. destruct (digit_val c); [discriminate|reflexivity].
  - unfold is_digit in Hc. destruct (digit_val c); [|discriminate].
    rewrite IH. reflexivity.
Qed.

Lemma read_digits_all (ds : list ascii) :
  Forall (fun c => is_digit c = true) ds -> read_digits ds = (ds, []).
Proof.
  intros F. rewrite <- (app_nil_r ds) at 1. apply read_digits_app; auto.
Qed.

End Digits.

(** ** Canonical decimals *)

Section Canon.
Local Open Scope Z_scope.

Lemma strip_zeros_spec (fuel : nat) (m e : Z) :
  0 < m ->
  0 < fst (strip_zeros fuel m e)
  /\ e <= snd (strip_zeros fuel m e)
  /\ m = fst (strip_zeros fuel m e) * 10 ^ (snd (strip_zeros fuel m e) - e).
Proof.
  revert m e. induction fuel as [|fuel IH]; intros m e Hm; cbn [strip_zeros].
  - cbn [fst snd]. rewrite Z.sub_diag. simpl. lia.
  - destruct (Z.eqb_spec (m mod 10) 0) as [E|E].
    + assert (D : m = 10 * (m / 10)) by (pose proof (Z.div_mod m 10); lia).
      assert (Hq : 0 < m / 10) by lia.
      destruct (IH (m / 10) (e + 1) Hq) as (P & L & V).
      repeat split; [exact P|lia|].
      rewrite D at 1. rewrite V at 1.
      replace (snd (strip_zeros fuel (m / 10) (e + 1)) - e)
        with (Z.succ (snd (strip_zeros fuel (m / 10) (e + 1)) - (e + 1)))
        by lia.
      rewrite Z.pow_succ_r by lia. ring.
    + cbn [fst snd]. rewrite Z.sub_diag. simpl. lia.
Qed.

Lemma strip_zeros_canon (fuel : nat) (m e : Z) :
  0 < m < 2 ^ Z.of_nat fuel -> fst (strip_zeros fuel m e) mod 10 <> 0.
Proof.
  revert m e. induction fuel as [|fuel IH]; intros m e Hm.
  - simpl in Hm. lia.
  - cbn [strip_zeros]. destruct (Z.eqb_spec (m mod 10) 0) as [E|E].
    + apply IH. rewrite Nat2Z.inj_succ, Z.pow_succ_r in Hm by lia.
      pose proof (Z.div_mod m 10). split; [lia|].
      apply Z.div_lt_upper_bound; lia.
    + exact E.
Qed.

Lemma canon_spec (m : positive) (e : Z) :
  0 < fst (canon m e)
  /\ e <= snd (canon m e)
  /\ Zpos m = fst (canon m e) * 10 ^ (snd (canon m e) - e)
  /\ fst (canon m e) mod 10 <> 0.
Proof.
  unfold canon.
  destruct (@strip_zeros_spec (S (Z.to_nat (Z.log2 (Zpos m)))) (Zpos m) e)
    as (P & L & V); [lia|].
  repeat split; auto.
  apply strip_zeros_canon. split; [lia|]. apply log2_fuel. lia.
Qed.

Lemma decimal_unique_lt (a b i j : Z) :
  0 < b -> a mod 10 <> 0 -> 0 <= i -> i < j ->
  a * 10 ^ i = b * 10 ^ j -> False.
Proof.
  intros Hb Na Hi Hij E.
  replace j with (i + Z.succ (j - i - 1)) in E by lia.
  rewrite Z.pow_add_r, Z.pow_succ_r in E by lia.
  assert (P : 0 < 10 ^ i) by (apply pow10_pos; lia).
  assert (E' : a = 10 * (b * 10 ^ (j - i - 1))) by nia.
  apply Na. rewrite E', Z.mul_comm. apply Z.mod_mul. lia.
Qed.

Lemma decimal_unique (a b i j : Z) :
  0 < a -> 0 < b -> a mod 10 <> 0 -> b mod 10 <> 0 -> 0 <= i -> 0 <= j ->
  a * 10 ^ i = b * 10 ^ j -> a = b /\ i = j.
Proof.
  intros Ha Hb Na Nb Hi Hj E.
  destruct (Z.lt_trichotomy i j) as [L|[->|G]].
  - exfalso. eapply (@decimal_unique_lt a b i j); eauto.
  - split; [|reflexivity].
    assert (P : 0 < 10 ^ j) by (apply pow10_pos; lia). nia.
  - exfalso. eapply (@decimal_unique_lt b a j i); eauto.
Qed.

Lemma canon_scale (m1 m2 : positive) (e1 e2 e0 : Z) :
  e0 <= e1 -> e0 <= e2 ->
  scale (Zpos m1) e1 e0 = scale (Zpos m2) e2 e0 ->
  canon m1 e1 = canon m2 e2.
Proof.
  intros H1 H2 E.
  destruct (canon_spec m1 e1) as (P1 & L1 & V1 & C1).
  destruct (canon_spec m2 e2) as (P2 & L2 & V2 & C2).
  unfold scale in E. rewrite V1, V2 in E.
  rewrite <- !Z.mul_assoc, <- !Z.pow_add_r in E by lia.
  apply decimal_unique in E; try lia.
  destruct E as [Ea Ee].
  destruct (canon m1 e1) as [a i], (canon m2 e2) as [b j].
  cbn [fst snd] in *. f_equal; lia.
Qed.

Lemma finite_eqb_intro (s : bool) (m1 m2 : positive) (e1 e2 e0 : Z) :
  e0 <= e1 -> e0 <= e2 ->
  scale (Zpos m1) e1 e0 = scale (Zpos m2) e2 e0 ->
  num_eqb (Finite s m1 e1) (Finite s m2 e2) = true.
Proof.
  intros H1 H2 E. unfold num_eqb.
  rewrite (@compare_rank e0) by (simpl; auto).
  cbn [rank ext_compare]. rewrite !scale_signed, E.
  destruct s; rewrite Z.compare_refl; reflexivity.
Qed.

Lemma finite_eqb_elim (s1 s2 : bool) (m1 m2 : positive) (e1 e2 : Z) :
  num_eqb (Finite s1 m1 e1) (Finite s2 m2 e2) = true ->
  s1 = s2 /\
  scale (Zpos m1) e1 (Z.min e1 e2) = scale (Zpos m2) e2 (Z.min e1 e2).
Proof.
  unfold num_eqb, num_compare. rewrite !scale_signed.
  pose proof (@scale_signed_pos m1 e1 (Z.min e1 e2)).
  pose proof (@scale_signed_pos m2 e2 (Z.min e1 e2)).
  destruct (Z.compare_spec
              (if s1 then - scale (Zpos m1) e1 (Z.min e1 e2)
               else scale (Zpos m1) e1 (Z.min e1 e2))
              (if s2 then - scale (Zpos m2) e2 (Z.min e1 e2)
               else scale (Zpos m2) e2 (Z.min e1 e2))) as [E|E|E];
    try discriminate.
  intros _. destruct s1, s2; split; try reflexivity; lia.
Qed.

(** Equal numbers print alike. *)
Lemma num_to_chars_eqb (x y : number) :
  num_eqb x y = true -> num_to_chars x = num_to_chars y.
Proof.
  destruct x as [|sx|sx|sx mx ex], y as [|sy|sy|sy my ey];
    try discriminate; try reflexivity;
    try (destruct sx; discriminate); try (destruct sy; discriminate);
    try (destruct sx, sy; try discriminate; reflexivity).
  intros H. apply finite_eqb_elim in H as [<- E].
  apply canon_scale in E; try lia.
  unfold num_to_chars, print_finite. rewrite E. reflexivity.
Qed.
End Canon.

(** ** Printing a number and reading it back *)

Section PrintParse.
Local Open Scope char_scope.
Local Open Scope Z_scope.

Lemma parse_exponent_print (x : Z) :
  parse_exponent ("e" :: (if x <? 0 then "-" else "+") :: digits (Z.abs x))
  = Some x.
Proof.
  unfold parse_exponent.
  change (Ascii.eqb "e" "e" || Ascii.eqb "e" "E")%bool with true.
  cbv iota.
  assert (R : read_digits (digits (Z.abs x)) = (digits (Z.abs x), []))
    by (apply read_digits_all, digits_are_digits; lia).
  pose proof (@digits_not_nil (Z.abs x) ltac:(lia)) as N.
  pose proof (@digits_value_digits (Z.abs x) ltac:(lia)) as V.
  destruct (Z.ltb_spec x 0).
  - change (Ascii.eqb "-" "-") with true. cbv iota. rewrite R.
    destruct (digits (Z.abs x)) as [|c t]; [congruence|].
    rewrite V. f_equal. lia.
  - change (Ascii.eqb "+" "-") with false.
    change (Ascii.eqb "+" "+") with true. cbv iota. rewrite R.
    destruct (digits (Z.abs x)) as [|c t]; [congruence|].
    rewrite V. f_equal. lia.
Qed.

Lemma exp_start_not_digit (l : list ascii) :
  exp_start l -> match l with [] => True | c :: _ => is_digit c = false end.
Proof. destruct l as [|c t]; simpl; [auto|]. intros ->. reflexivity. Qed.

Lemma parse_decimal_nodot (neg : bool) (ip expo : list ascii) :
  Forall (fun c => is_digit c = true) ip -> ip <> [] -> exp_start expo ->
  parse_decimal neg (ip ++ expo) =
  match parse_exponent expo with
  | None => NaN
  | Some x => finite_or_zero neg (digits_value ip) x
  end.
Proof.
  intros F N S. unfold parse_decimal.
  rewrite read_digits_app; [|exact F|apply exp_start_not_digit, S].
  assert (D : match expo with
              | c :: t => if Ascii.eqb c "." then read_digits t
                          else ([], expo)
              | [] => ([], expo)
              end = ([], expo)).
  { destruct expo as [|c t]; [reflexivity|]. simpl in S. subst c.
    reflexivity. }
  rewrite D, app_nil_r.
  destruct ip as [|c t]; [congruence|].
  destruct (parse_exponent expo); [|reflexivity].
  simpl List.length. rewrite Z.sub_0_r. reflexivity.
Qed.

Lemma parse_decimal_dot (neg : bool) (ip fp expo : list ascii) :
  Forall (fun c => is_digit c = true) ip -> Forall (fun c => is_digit c = true) fp -> ip ++ fp <> [] -> exp_start expo ->
  parse_decimal neg (ip ++ "." :: fp ++ expo) =
  match parse_exponent expo with
  | None => NaN
  | Some x => finite_or_zero neg (digits_value (ip ++ fp))
                             (x - Z.of_nat (List.length fp))
  end.
Proof.
  intros Fi Ff N S. unfold parse_decimal.
  rewrite read_digits_app; [|exact Fi|reflexivity].
  change (Ascii.eqb "." ".") with true. cbv iota.
  rewrite read_digits_app; [|exact Ff|apply exp_start_not_digit, S].
  destruct (ip ++ fp) as [|c t] eqn:E; [congruence|].
  reflexivity.
Qed.

Lemma all_digits_firstn (n : nat) (l : list ascii) :
  Forall (fun c => is_digit c = true) l -> Forall (fun c => is_digit c = true) (firstn n l).
Proof.
  intros F. rewrite <- (firstn_skipn n l) in F.
  apply Forall_app in F. tauto.
Qed.

Lemma all_digits_skipn (n : nat) (l : list ascii) :
  Forall (fun c => is_digit c = true) l -> Forall (fun c => is_digit c = true) (skipn n l).
Proof.
  intros F. rewrite <- (firstn_skipn n l) in F.
  apply Forall_app in F. tauto.
Qed.

Lemma all_digits_zeros (j : nat) : Forall (fun c => is_digit c = true) (repeat "0" j).
Proof. induction j; simpl; constructor; auto. Qed.

(** Reading a printed positive decimal gives its mantissa and exponent
    back, up to the zeros of an integer written in full. *)
Lemma parse_layout (neg : bool) (z e : Z) :
  0 < z ->
  parse_decimal neg (layout (digits z) (Z.of_nat (List.length (digits z)) + e))
  = finite_or_zero neg z e
  \/ (0 <= e /\
      parse_decimal neg
        (layout (digits z) (Z.of_nat (List.length (digits z)) + e))
      = finite_or_zero neg (z * 10 ^ e) 0).
Proof.
  intros Hz.
  pose proof (@digits_are_digits z ltac:(lia)) as F.
  pose proof (@digits_not_nil z ltac:(lia)) as N.
  pose proof (@digits_value_digits z ltac:(lia)) as V.
  set (ds := digits z) in *. clearbody ds.
  set (k := Z.of_nat (List.length ds)).
  assert (Hk : 1 <= k).
  { unfold k. destruct ds; [congruence|]. simpl List.length. lia. }
  unfold layout. fold k.
  destruct ((k <=? k + e) && (k + e <=? 21))%bool eqn:C1.
  { (* an integer written in full *)
    apply andb_true_iff in C1 as [C1 _]. apply Z.leb_le in C1.
    right. split; [lia|].
    rewrite <- (app_nil_r (ds ++ _)).
    rewrite parse_decimal_nodot.
    - cbn [parse_exponent]. rewrite digits_value_app, V, digits_value_zeros.
      rewrite repeat_length, Z2Nat.id by lia.
      replace (k + e - k) with e by lia. rewrite Z.add_0_r. reflexivity.
    - apply Forall_app. split; [exact F|apply all_digits_zeros].
    - destruct ds; [congruence|discriminate].
    - exact I. }
  destruct ((0 <? k + e) && (k + e <=? 21))%bool eqn:C2.
  { (* digits on both sides of the point *)
    apply andb_true_iff in C2 as [C2 C2']. apply Z.ltb_lt in C2.
    assert (C1' : k + e < k).
    { apply andb_false_iff in C1 as [C1|C1]; [|congruence].
      apply Z.leb_gt in C1. lia. }
    left.
    rewrite <- (app_nil_r (skipn _ ds)).
    rewrite parse_decimal_dot.
    - cbn [parse_exponent]. rewrite firstn_skipn, V.
      rewrite length_skipn. f_equal. unfold k. lia.
    - apply all_digits_firstn, F.
    - apply all_digits_skipn, F.
    - rewrite firstn_skipn. exact N.
    - exact I. }
  destruct ((-6 <? k + e) && (k + e <=? 0))%bool eqn:C3.
  { (* a fraction with leading zeros *)
    apply andb_true_iff in C3 as [_ C3]. apply Z.leb_le in C3.
    left.
    change ("0" :: "." :: repeat "0" (Z.to_nat (- (k + e))) ++ ds)
      with (["0"] ++ "." :: repeat "0" (Z.to_nat (- (k + e))) ++ ds).
    rewrite <- (app_nil_r ds) at 1. rewrite app_assoc.
    rewrite parse_decimal_dot.
    - cbn [parse_exponent].
      rewrite !digits_value_app, digits_value_zeros, V.
      change (digits_value ["0"]) with 0.
      rewrite length_app, repeat_length, Nat2Z.inj_add, Z2Nat.id by lia.
      f_equal; unfold k; lia.
    - repeat constructor.
    - apply Forall_app. split; [apply all_digits_zeros|exact F].
    - discriminate.
    - exact I. }
  (* exponent notation *)
  left. destruct ds as [|d [|d' rest]]; [congruence| |].
  - change (d :: "e" :: ?t) with ([d] ++ "e" :: t).
    rewrite parse_decimal_nodot; [|exact F|discriminate|reflexivity].
    rewrite parse_exponent_print, V. f_equal. unfold k.
    change (Z.of_nat (List.length [d])) with 1. lia.
  - change (d :: "." :: ?t) with ([d] ++ "." :: t).
    rewrite parse_decimal_dot.
    + rewrite parse_exponent_print. change ([d] ++ d' :: rest)
        with (d :: d' :: rest). rewrite V. f_equal. unfold k.
      cbn [List.length]. lia.
    + inversion F; subst. repeat constructor; assumption.
    + inversion F; subst. assumption.
    + discriminate.
    + reflexivity.
Qed.
End PrintParse.

Section RoundTrip.
Local Open Scope char_scope.
Local Open Scope Z_scope.

Lemma num_char_digit (c : ascii) : is_digit c = true -> num_char c = true.
Proof. intros H. unfold num_char. rewrite H. reflexivity. Qed.

Lemma num_char_cases (c : ascii) :
  num_char c = true ->
  is_digit c = true \/ c = "." \/ c = "e" \/ c = "+" \/ c = "-".
Proof.
  unfold num_char. rewrite !orb_true_iff, !Ascii.eqb_eq. tauto.
Qed.

Lemma digit_not_ws (c : ascii) : is_digit c = true -> is_ws c = false.
Proof.
  intros H. apply is_digit_code in H. unfold is_ws.
  destruct (N.leb_spec 9 (N_of_ascii c)), (N.leb_spec (N_of_ascii c) 13),
    (N.eqb_spec (N_of_ascii c) 32), (N.eqb_spec (N_of_ascii c) 160);
    simpl; try reflexivity; lia.
Qed.

Lemma num_char_not_ws (c : ascii) : num_char c = true -> is_ws c = false.
Proof.
  intros H. apply num_char_cases in H as [H|[->|[->|[->| ->]]]];
    try reflexivity.
  apply digit_not_ws, H.
Qed.

Lemma num_char_neq (c c' : ascii) :
  num_char c = true -> num_char c' = false -> Ascii.eqb c c' = false.
Proof.
  intros H H'. destruct (Ascii.eqb_spec c c'); [|reflexivity]. congruence.
Qed.

Lemma drop_ws_id (l : list ascii) :
  match l with [] => True | c :: _ => is_ws c = false end -> drop_ws l = l.
Proof. destruct l as [|c t]; simpl; [auto|]. intros ->. reflexivity. Qed.

Lemma trim_id (l : list ascii) :
  Forall (fun c => is_ws c = false) l -> trim l = l.
Proof.
  intros F. unfold trim. rewrite (@drop_ws_id l).
  - rewrite drop_ws_id; [apply rev_involutive|].
    apply Forall_rev in F. destruct (rev l); [exact I|].
    inversion F; assumption.
  - destruct l; [exact I|]. inversion F; assumption.
Qed.

Lemma radix_prefix_num_chars (l : list ascii) :
  Forall (fun c => num_char c = true) l -> radix_prefix l = None.
Proof.
  intros F. destruct l as [|z [|c r]]; try reflexivity.
  inversion F as [|? ? _ F']; subst. inversion F' as [|? ? Hc _]; subst.
  unfold radix_prefix.
  rewrite !(@num_char_neq c) by (exact Hc || reflexivity).
  destruct (Ascii.eqb z "0"); reflexivity.
Qed.

Lemma layout_chars (ds : list ascii) (n : Z) :
  Forall (fun c => is_digit c = true) ds -> ds <> [] ->
  Forall (fun c => num_char c = true) (layout ds n)
  /\ exists c t, layout ds n = c :: t /\ is_digit c = true.
Proof.
  intros F N.
  assert (F' : Forall (fun c => num_char c = true) ds).
  { eapply Forall_impl; [|exact F]. apply num_char_digit. }
  destruct ds as [|d ds]; [congruence|].
  inversion F as [|? ? Hd Fd]; subst.
  inversion F' as [|? ? Hd' Fd']; subst.
  unfold layout.
  destruct ((_ <=? n) && (n <=? 21))%bool.
  { split; [|exists d; eexists; split; [reflexivity|exact Hd]].
    apply Forall_app. split; [exact F'|].
    eapply Forall_impl; [apply num_char_digit|apply all_digits_zeros]. }
  destruct ((0 <? n) && (n <=? 21))%bool eqn:C.
  { apply andb_true_iff in C as [C _]. apply Z.ltb_lt in C.
    destruct (Z.to_nat n) as [|k] eqn:E; [lia|].
    split; [|exists d; eexists; split; [reflexivity|exact Hd]].
    apply Forall_app. split.
    - rewrite <- (firstn_skipn (S k) (d :: ds)) in F'.
      apply Forall_app in F'. tauto.
    - constructor; [reflexivity|].
      rewrite <- (firstn_skipn (S k) (d :: ds)) in F'.
      apply Forall_app in F'. tauto. }
  destruct ((-6 <? n) && (n <=? 0))%bool.
  { split; [|exists "0"; eexists; split; reflexivity].
    constructor; [reflexivity|]. constructor; [reflexivity|].
    apply Forall_app. split; [|exact F'].
    eapply Forall_impl; [apply num_char_digit|apply all_digits_zeros]. }
  assert (X : Forall (fun c => num_char c = true)
                ("e" :: (if n - 1 <? 0 then "-" else "+")
                     :: digits (Z.abs (n - 1)))).
  { constructor; [reflexivity|].
    constructor; [destruct (n - 1 <? 0); reflexivity|].
    eapply Forall_impl; [apply num_char_digit|].
    apply digits_are_digits. lia. }
  destruct ds as [|d' rest].
  - split; [|exists d; eexists; split; [reflexivity|exact Hd]].
    constructor; assumption.
  - split; [|exists d; eexists; split; [reflexivity|exact Hd]].
    constructor; [exact Hd'|]. constructor; [reflexivity|].
    apply Forall_app. split; assumption.
Qed.

Lemma parse_unsigned_digit (neg : bool) (c : ascii) (t : list ascii) :
  is_digit c = true -> parse_unsigned neg (c :: t) = parse_decimal neg (c :: t).
Proof.
  intros H. unfold parse_unsigned, chars_eqb.
  cbn [list_ascii_of_string string_of_list_ascii String.eqb].
  rewrite (@is_digit_neq c "I") by (exact H || reflexivity). reflexivity.
Qed.

Lemma chars_to_num_plain (c : ascii) (t : list ascii) :
  is_digit c = true -> Forall (fun c => num_char c = true) (c :: t) ->
  chars_to_num (c :: t) = parse_decimal false (c :: t)
  /\ chars_to_num ("-" :: c :: t) = parse_decimal true (c :: t).
Proof.
  intros H F.
  assert (W : Forall (fun c => is_ws c = false) (c :: t)).
  { eapply Forall_impl; [|exact F]. apply num_char_not_ws. }
  split; unfold chars_to_num.
  - rewrite trim_id by exact W.
    rewrite radix_prefix_num_chars by exact F.
    unfold parse_signed.
    rewrite !(@is_digit_neq c) by (exact H || reflexivity).
    apply parse_unsigned_digit, H.
  - rewrite trim_id by (constructor; [reflexivity|exact W]).
    rewrite radix_prefix_num_chars by (constructor; [reflexivity|exact F]).
    unfold parse_signed.
    change (Ascii.eqb "-" "+") with false.
    change (Ascii.eqb "-" "-") with true. cbv iota.
    apply parse_unsigned_digit, H.
Qed.

Lemma finite_or_zero_eqb (s : bool) (z e0 : Z) (m : positive) (e e' : Z) :
  0 < z -> e0 <= e' -> e0 <= e ->
  scale z e' e0 = scale (Zpos m) e e0 ->
  num_eqb (finite_or_zero s z e') (Finite s m e) = true.
Proof.
  intros Hz H1 H2 E. destruct z as [|p|p]; try lia.
  cbn [finite_or_zero]. eapply finite_eqb_intro; eauto.
Qed.

Lemma chars_to_num_print_finite (s : bool) (m : positive) (e : Z) :
  num_eqb (chars_to_num (num_to_chars (Finite s m e))) (Finite s m e) = true.
Proof.
  destruct (canon_spec m e) as (P & L & V & _).
  assert (R : chars_to_num (num_to_chars (Finite s m e)) =
              parse_decimal s (print_finite m e)).
  { unfold num_to_chars, print_finite.
    destruct (canon m e) as [m' e']. cbn [fst] in P.
    destruct (@layout_chars (digits m')
                (Z.of_nat (List.length (digits m')) + e'))
      as (F & c & t & E & Hc);
      [apply digits_are_digits; lia|apply digits_not_nil; lia|].
    rewrite E in *.
    destruct (chars_to_num_plain Hc F) as [R1 R2].
    destruct s; assumption. }
  rewrite R. unfold print_finite.
  destruct (canon m e) as [m' e']. cbn [fst snd] in *.
  destruct (@parse_layout s m' e' P) as [-> | [He ->]].
  - apply finite_or_zero_eqb with e; try lia.
    rewrite scale_same. unfold scale. lia.
  - assert (0 < 10 ^ e') by (apply pow10_pos; lia).
    apply finite_or_zero_eqb with (Z.min 0 e); try lia.
    unfold scale. rewrite V, <- !Z.mul_assoc, <- !Z.pow_add_r by lia.
    do 2 f_equal. lia.
Qed.

Lemma chars_to_num_print (x : number) :
  num_is_nan x = false ->
  num_eqb (chars_to_num (num_to_chars x)) x = true.
Proof.
  destruct x as [|[]|s|s m e]; try discriminate; intros _.
  - reflexivity.
  - reflexivity.
  - destruct s; reflexivity.
  - apply chars_to_num_print_finite.
Qed.

(** [ToNumber(ToString(x))] is [x]. *)
Lemma string_to_num_to_string (x : number) :
  num_is_nan x = false ->
  num_eqb (string_to_num (num_to_string x)) x = true.
Proof.
  intros H. unfold string_to_num, num_to_string.
  rewrite list_ascii_of_string_of_list_ascii. apply chars_to_num_print, H.
Qed.

Lemma num_to_string_eqb (x y : number) :
  num_eqb x y = true -> num_to_string x = num_to_string y.
Proof.
  intros H. unfold num_to_string. f_equal. apply num_to_chars_eqb, H.
Qed.

(** Numbers that print alike are equal. *)
Lemma num_to_string_inj (x y : number) :
  num_is_nan x = false -> num_is_nan y = false ->
  num_to_string x = num_to_string y -> num_eqb x y = true.
Proof.
  intros Hx Hy E.
  apply num_eqb_trans with (string_to_num (num_to_string x)).
  - rewrite num_eqb_sym. apply string_to_num_to_string, Hx.
  - rewrite E. apply string_to_num_to_string, Hy.
Qed.
End RoundTrip.

(** ** The grouping loop *)

Section Grouping.

Lemma filter_twice (A : Type) (p q : A -> bool) (l : list A) :
  filter p (filter q l) = filter (fun x => q x && p x) l.
Proof.
  induction l as [|x l IH]; [reflexivity|].
  cbn [filter]. destruct (q x); cbn [filter andb]; rewrite IH; reflexivity.
Qed.

Lemma num_add_one (n : nat) :
  num_add (num_of_nat n) (Finite false 1 0) = num_of_nat (S n).
Proof.
  unfold num_of_nat, num_of_Z. rewrite Nat2Z.inj_succ.
  destruct (Z.of_nat n) as [|p|p] eqn:E; try lia.
  - reflexivity.
  - cbn [of_mantissa num_add signed]. rewrite !scale_same.
    reflexivity.
Qed.

Lemma get_or_zero (t : list (string * nat)) (k : string) :
  js_or (obj_get (as_object t) k) (VNum (Zero false))
  = count_value (lookup t k).
Proof.
  induction t as [|[k' n] r IH]; [reflexivity|].
  cbn [as_object map obj_get lookup fst snd].
  destruct (String.eqb k' k); [|exact IH].
  destruct n; reflexivity.
Qed.

Lemma set_as_object (t : list (string * nat)) (k : string) :
  obj_set (as_object t) k (count_value (S (lookup t k)))
  = as_object (tally_add t k).
Proof.
  induction t as [|[k' n] r IH]; [reflexivity|].
  cbn [as_object map obj_set lookup tally_add fst snd].
  destruct (String.eqb k' k); [reflexivity|].
  cbn [map fst snd]. f_equal. exact IH.
Qed.

Lemma count_step_tally (key : Car -> value) (t : list (string * nat))
    (d : Car) :
  count_step key (as_object t) d = as_object (tally_add t (ToString (key d))).
Proof.
  unfold count_step. rewrite get_or_zero, <- set_as_object.
  f_equal. unfold count_value, js_add. cbn [ToNumber].
  rewrite num_add_one. reflexivity.
Qed.

Lemma count_by_tally (key : Car -> value) (fd : list Car) :
  count_by key fd = as_object (tally (keys_of key fd)).
Proof.
  unfold count_by, tally, keys_of.
  change (@nil (string * value)) with (as_object []).
  generalize (@nil (string * nat)).
  induction fd as [|d fd IH]; intros t; [reflexivity|].
  cbn [fold_left map]. rewrite count_step_tally. apply IH.
Qed.

(** The keys of a tally are the first occurrences, in order. *)
Lemma tally_add_keys (t : list (string * nat)) (k : string) :
  map fst (tally_add t k) =
  if existsb (fun x => String.eqb x k) (map fst t) then map fst t
  else map fst t ++ [k].
Proof.
  induction t as [|[k' n] r IH]; [reflexivity|].
  cbn [tally_add map fst existsb].
  destruct (String.eqb k' k) eqn:E; [reflexivity|].
  cbn [map fst orb]. rewrite IH.
  destruct (existsb _ (map fst r)); reflexivity.
Qed.

Lemma existsb_eqb_In (k : string) (l : list string) :
  existsb (fun x => String.eqb x k) l = true <-> In k l.
Proof.
  rewrite existsb_exists. split.
  - intros (x & Hx & E). apply String.eqb_eq in E. congruence.
  - intros H. exists k. split; [exact H|apply String.eqb_refl].
Qed.

Lemma fold_tally_keys (ks : list string) (t : list (string * nat)) :
  map fst (fold_left tally_add ks t) =
  map fst t
  ++ filter (fun x => negb (existsb (fun y => String.eqb y x) (map fst t)))
            (firsts ks).
Proof.
  revert t. induction ks as [|k r IH]; intros t.
  - simpl. rewrite app_nil_r. reflexivity.
  - cbn [fold_left firsts filter]. rewrite IH, tally_add_keys.
    destruct (existsb (fun y => String.eqb y k) (map fst t)) eqn:E.
    + cbn [negb]. f_equal. rewrite filter_twice.
      apply filter_ext. intros x.
      destruct (String.eqb_spec x k) as [->|N]; [|reflexivity].
      rewrite E. reflexivity.
    + cbn [negb]. rewrite <- app_assoc. cbn [app]. do 2 f_equal.
      rewrite filter_twice. apply filter_ext. intros x.
      rewrite existsb_app. cbn [existsb].
      rewrite orb_false_r, negb_orb, (String.eqb_sym k x).
      apply andb_comm.
Qed.

Lemma tally_keys (ks : list string) : map fst (tally ks) = firsts ks.
Proof.
  unfold tally. rewrite fold_tally_keys. simpl.
  induction (firsts ks) as [|x l IH]; [reflexivity|].
  simpl. f_equal. exact IH.
Qed.

Lemma firsts_In (ks : list string) (k : string) :
  In k (firsts ks) <-> In k ks.
Proof.
  induction ks as [|x r IH]; [reflexivity|].
  cbn [firsts In]. rewrite filter_In, IH, negb_true_iff, String.eqb_neq.
  destruct (String.eqb_spec x k) as [->|N]; [tauto|].
  split; [tauto|]. intros [H|H]; [tauto|]. right. split; [exact H|].
  congruence.
Qed.

Lemma firsts_NoDup (ks : list string) : NoDup (firsts ks).
Proof.
  induction ks as [|x r IH]; [constructor|].
  cbn [firsts]. constructor.
  - rewrite filter_In, String.eqb_refl. intros [_ H]. discriminate.
  - apply NoDup_filter, IH.
Qed.


Lemma tally_add_sum (t : list (string * nat)) (k : string) :
  list_sum (map snd (tally_add t k)) = S (list_sum (map snd t)).
Proof.
  induction t as [|[k' n] r IH]; [reflexivity|].
  cbn [tally_add]. destruct (String.eqb k' k).
  - reflexivity.
  - cbn [map snd].
    change (list_sum (n :: map snd (tally_add r k)))
      with (n + list_sum (map snd (tally_add r k)))%nat.
    rewrite IH. change (list_sum (n :: map snd r))
      with (n + list_sum (map snd r))%nat. lia.
Qed.

Lemma fold_tally_sum (ks : list string) (t : list (string * nat)) :
  list_sum (map snd (fold_left tally_add ks t)) =
  (list_sum (map snd t) + List.length ks)%nat.
Proof.
  revert t. induction ks as [|k r IH]; intros t; simpl; [lia|].
  rewrite IH, tally_add_sum. lia.
Qed.

(** The counts of a tally add up to the number of keys counted. *)
Lemma tally_sum (ks : list string) :
  list_sum (map snd (tally ks)) = List.length ks.
Proof. unfold tally. rewrite fold_tally_sum. reflexivity. Qed.

Lemma as_object_keys (t : list (string * nat)) :
  map fst (as_object t) = map fst t.
Proof. unfold as_object. rewrite map_map. reflexivity. Qed.

Lemma as_object_values (t : list (string * nat)) :
  map snd (as_object t) = map count_value (map snd t).
Proof. unfold as_object. rewrite !map_map. reflexivity. Qed.
End Grouping.

(** ** The order of [Object.entries] *)

Section Entries.
Local Open Scope Z_scope.



Lemma filter_partition_perm (A : Type) (p : A -> bool) (l : list A) :
  Permutation (filter p l ++ filter (fun x => negb (p x)) l) l.
Proof.
  induction l as [|x l IH]; [constructor|].
  cbn [filter]. destruct (p x); cbn [negb app].
  - apply perm_skip, IH.
  - apply Permutation_sym, Permutation_cons_app, Permutation_sym, IH.
Qed.

Lemma Object_entries_perm (o : object) : Permutation (Object_entries o) o.
Proof.
  unfold Object_entries.
  eapply perm_trans; [|apply filter_partition_perm].
  apply Permutation_app_tail, isort_perm.
Qed.


Lemma precedes_NoDup_map (A B : Type) (f : A -> B) (l : list A) (a b : A) :
  NoDup (map f l) -> precedes a b l -> f a <> f b.
Proof.
  intros N (l1 & l2 & l3 & ->) E.
  rewrite map_app in N. cbn [map] in N. apply NoDup_remove_2 in N.
  apply N. apply in_or_app. right.
  rewrite map_app. apply in_or_app. right. left. symmetry. exact E.
Qed.



End Entries.

(** * The claims *)

(** ** Cleaning *)

Lemma year_parses_false (r : RawRow) :
  year_parses r = false <->
  num_is_nan (ToNumber (obj_get r "Model Year")) = true
  \/ num_is_zero (ToNumber (obj_get r "Model Year")) = true.
Proof.
  unfold year_parses, Number. cbn [ToBoolean].
  rewrite negb_false_iff, orb_true_iff. tauto.
Qed.

Lemma truthy_number_not_null (v : value) : truthy_number v -> v <> VNull.
Proof. intros (n & -> & _). discriminate. Qed.

(** C1. [data] keeps a row if and only if [Number] of its year field is
    truthy, that is neither NaN (a non-numeric field) nor a zero (an empty
    field, or zero): the cleaned records are the images of the kept rows, in
    the order of the rows and with nothing merged, so that there are at most
    as many records as rows, and no record has a [null] year. *)
Theorem C1_clean_drops_unparsed_years (rows : list RawRow) :
  data (Some rows) = map clean_row (filter year_parses rows)
  /\ (forall r, year_parses r = false <->
                num_is_nan (ToNumber (obj_get r "Model Year")) = true
                \/ num_is_zero (ToNumber (obj_get r "Model Year")) = true)
  /\ (forall v, In v [VUndefined; VNull; VStr ""; VStr "bad"; VStr "n/a";
                      VNum (Zero false); VNum NaN] ->
                forall r, obj_get r "Model Year" = v -> year_parses r = false)
  /\ (List.length (data (Some rows)) <= List.length rows)%nat
  /\ Forall (fun d => year d <> VNull) (data (Some rows))
  /\ data None = [].
Proof.
  split; [apply data_filter_map|].
  split; [apply year_parses_false|].
  split.
  { intros v Hv r E. unfold year_parses. rewrite E.
    cbn [In] in Hv.
    repeat (destruct Hv as [<-|Hv]; [reflexivity|]). destruct Hv. }
  split.
  { rewrite data_filter_map, length_map. apply filter_length_le. }
  split; [|reflexivity].
  apply Forall_forall. intros d Hd.
  apply truthy_number_not_null. eapply data_year_truthy, Hd.
Qed.

Lemma clean_row_range (r : RawRow) :
  battery_capacity_kwh (clean_row r) =
  VNum (if num_is_nan (ToNumber (obj_get r "Electric Range"))
           || num_is_zero (ToNumber (obj_get r "Electric Range"))
        then Zero false
        else ToNumber (obj_get r "Electric Range")).
Proof.
  unfold clean_row, battery_capacity_kwh, js_or, Number. cbn [ToBoolean].
  destruct (num_is_nan _ || num_is_zero _); reflexivity.
Qed.

Lemma clean_row_text (r : RawRow) :
  ToBoolean (state (clean_row r)) = true
  /\ ToBoolean (make (clean_row r)) = true
  /\ ToBoolean (model (clean_row r)) = true
  /\ ToBoolean (vehicle_type (clean_row r)) = true.
Proof.
  unfold clean_row; cbn [state make model vehicle_type].
  repeat split; unfold js_or;
    match goal with
    | |- ToBoolean (if ToBoolean ?v then _ else _) = true =>
        destruct (ToBoolean v) eqn:E; [exact E|reflexivity]
    end.
Qed.

(** C2, as stated, fails: a range cell [-5] is kept as the range [-5]. *)
Lemma C2_counterexample_negative_range :
  ~ (forall d, In d (data (Some negative_range_rows)) ->
               exists n, battery_capacity_kwh d = VNum n
                         /\ num_leb (Zero false) n = true).
Proof.
  intros H.
  destruct (H (clean_row (row (int 2020) (VStr "WA") (int (-5)))))
    as (n & E & L).
  - left. reflexivity.
  - vm_compute in E. injection E as <-. discriminate.
Qed.

(** C2, amended.  For every cleaned record the range is a number and not
    NaN: it is [0] when [Number] of the source field is NaN or a zero, and
    is that number otherwise, hence non-negative whenever the source is not
    a negative number.  The state, make, model and vehicle type are truthy,
    so never the empty string: a falsy source (empty, missing) is replaced
    by ["Unknown"], for the vehicle type by ["Other"]. *)
Theorem C2_cleaned_fields (raw : option (list RawRow)) :
  Forall (fun d =>
            (exists n, battery_capacity_kwh d = VNum n
                       /\ num_is_nan n = false)
            /\ state d <> VStr "" /\ make d <> VStr ""
            /\ model d <> VStr "" /\ vehicle_type d <> VStr "")
         (data raw)
  /\ (forall r,
        battery_capacity_kwh (clean_row r) =
        VNum (if num_is_nan (ToNumber (obj_get r "Electric Range"))
                 || num_is_zero (ToNumber (obj_get r "Electric Range"))
              then Zero false
              else ToNumber (obj_get r "Electric Range")))
  /\ (forall r,
        num_leb (Zero false) (ToNumber (obj_get r "Electric Range")) = true ->
        num_leb (Zero false)
                (ToNumber (battery_capacity_kwh (clean_row r))) = true)
  /\ (forall r,
        (ToBoolean (obj_get r "State") = false ->
         state (clean_row r) = VStr "Unknown")
        /\ (ToBoolean (obj_get r "Make") = false ->
            make (clean_row r) = VStr "Unknown")
        /\ (ToBoolean (obj_get r "Model") = false ->
            model (clean_row r) = VStr "Unknown")
        /\ (ToBoolean (obj_get r "Electric Vehicle Type") = false ->
            vehicle_type (clean_row r) = VStr "Other")).
Proof.
  split; [|split; [apply clean_row_range|split]].
  - apply Forall_forall. intros d Hd.
    apply data_In in Hd as (rows & r & _ & _ & _ & ->).
    destruct (clean_row_text r) as (S & M & O & V).
    split; [|auto using truthy_not_empty].
    rewrite clean_row_range. eexists. split; [reflexivity|].
    destruct (num_is_nan (ToNumber (obj_get r "Electric Range"))) eqn:E;
      [reflexivity|].
    cbn [orb]. destruct (num_is_zero _); [reflexivity|exact E].
  - intros r H. rewrite clean_row_range. cbn [ToNumber].
    destruct (num_is_nan _ || num_is_zero _); [reflexivity|exact H].
  - intros r. unfold clean_row; cbn [state make model vehicle_type].
    unfold js_or. repeat split; intros ->; reflexivity.
Qed.

(** C3, as stated, fails: a year cell [2020.5] survives cleaning, and
    [Number] leaves it as it is. *)
Lemma C3_counterexample_fractional_year :
  ~ (forall d, In d (data (Some fractional_year_rows)) ->
               exists n, year d = VNum n /\ num_is_integer n = true).
Proof.
  intros H.
  destruct (H (clean_row (row (VNum (Finite false 20205 (-1))) (VStr "WA")
                              (int 150))))
    as (n & E & L).
  - left. reflexivity.
  - vm_compute in E. injection E as <-. discriminate.
Qed.

(** C3, amended.  For every cleaned record the year is [Number] of the year
    field of its row, a number that is neither NaN nor a zero, and so is
    not [null]; [Number] keeps a fractional value as it is. *)
Theorem C3_cleaned_year_is_number (raw : option (list RawRow)) :
  Forall (fun d =>
            truthy_number (year d) /\ year d <> VNull
            /\ exists rows r, raw = Some rows /\ In r rows
                              /\ d = clean_row r
                              /\ year d = Number (obj_get r "Model Year"))
         (data raw).
Proof.
  apply Forall_forall. intros d Hd.
  pose proof (data_year_truthy _ _ Hd) as T.
  split; [exact T|]. split; [apply truthy_number_not_null, T|].
  apply data_In in Hd as (rows & r & -> & Hr & Hp & ->).
  exists rows, r. repeat split; auto using clean_row_year.
Qed.

(** ** Filtering *)

Lemma filteredData_filter (data : list Car) (filters : Filters) :
  filteredData data filters = filter (selected filters) data.
Proof.
  unfold filteredData, array_filter. apply filter_ext. intros d.
  apply keep_selected.
Qed.

(** C4. [filteredData] keeps a record if and only if (the selected year is
    ["All"] or the record's year [===] the number the selected year
    converts to) and (the selected state is ["All"] or the record's state
    [===] the selected state); the result is always a list, possibly
    empty. *)
Theorem C4_filter_keeps_selected (data : list Car) (filters : Filters) :
  filteredData data filters = filter (selected filters) data
  /\ (forall d,
        In d (filteredData data filters) <->
        In d data
        /\ (f_year filters = VStr "All"
            \/ strict_equal (year d) (Number (f_year filters)) = true)
        /\ (f_state filters = VStr "All"
            \/ strict_equal (state d) (f_state filters) = true))
  /\ filteredData [] filters = [].
Proof.
  split; [apply filteredData_filter|]. split; [|reflexivity].
  intros d. rewrite filteredData_filter, filter_In. unfold selected.
  rewrite andb_true_iff, !orb_true_iff, !strict_equal_All. tauto.
Qed.

(** C8. With the selection [{year: "All", state: "All"}] the filter returns
    the cleaned records unchanged. *)
Theorem C8_filter_all_is_identity (data : list Car) :
  filteredData data all_filters = data.
Proof.
  rewrite filteredData_filter.
  induction data as [|d data IH]; [reflexivity|].
  cbn [filter]. rewrite IH. reflexivity.
Qed.

(** C10. The output of the filter is a subsequence of its input: every
    output record is a record of the input, and two output records stand
    in the order they have in the input. *)
Theorem C10_filter_subsequence (data : list Car) (filters : Filters) :
  subseq (filteredData data filters) data
  /\ (forall d, In d (filteredData data filters) -> In d data)
  /\ (forall a b, precedes a b (filteredData data filters) ->
                  precedes a b data).
Proof.
  assert (S : subseq (filteredData data filters) data)
    by (rewrite filteredData_filter; apply subseq_filter).
  split; [exact S|]. split.
  - apply subseq_In, S.
  - apply subseq_precedes, S.
Qed.

(** ** The average range *)

Section Average.
Local Open Scope Z_scope.

Lemma same_number_refl (x : number) : same_number x x = true.
Proof.
  destruct x as [|s|s|s m e]; try reflexivity.
  - destruct s; reflexivity.
  - apply num_eqb_refl. reflexivity.
Qed.












End Average.



(** ** Registrations by year *)

Section SortedCharts.

Lemma count_by_keys (key : Car -> value) (fd : list Car) :
  map fst (count_by key fd) = firsts (keys_of key fd).
Proof. rewrite count_by_tally, as_object_keys. apply tally_keys. Qed.

Lemma entries_keys_perm (key : Car -> value) (fd : list Car) :
  Permutation (map fst (Object_entries (count_by key fd)))
              (firsts (keys_of key fd)).
Proof.
  rewrite <- count_by_keys. apply Permutation_map, Object_entries_perm.
Qed.

Lemma entries_keys_NoDup (key : Car -> value) (fd : list Car) :
  NoDup (map fst (Object_entries (count_by key fd))).
Proof.
  eapply Permutation_NoDup;
    [apply Permutation_sym, entries_keys_perm|apply firsts_NoDup].
Qed.

Lemma entries_key_In (key : Car -> value) (fd : list Car) (k : string) :
  In k (map fst (Object_entries (count_by key fd))) <->
  In k (keys_of key fd).
Proof.
  split; intros H.
  - apply firsts_In. eapply Permutation_in; [apply entries_keys_perm|].
    exact H.
  - eapply Permutation_in; [apply Permutation_sym, entries_keys_perm|].
    apply firsts_In, H.
Qed.

Lemma list_sum_perm (l1 l2 : list nat) :
  Permutation l1 l2 -> list_sum l1 = list_sum l2.
Proof.
  induction 1 as [|x l l' _ IH|x y l|l l' l'' _ IH1 _ IH2]; simpl; lia.
Qed.

(** The counts of a chart are natural numbers that add up to the number
    of records. *)
Lemma entries_counts (key : Car -> value) (fd : list Car) :
  exists ns,
    map snd (Object_entries (count_by key fd)) = map count_value ns
    /\ list_sum ns = List.length fd.
Proof.
  assert (P : Permutation (map snd (Object_entries (count_by key fd)))
                          (map count_value
                               (map snd (tally (keys_of key fd))))).
  { rewrite <- as_object_values, <- count_by_tally.
    apply Permutation_map, Object_entries_perm. }
  apply Permutation_map_inv in P as (ns & E & Q).
  exists ns. split; [exact E|].
  rewrite <- (list_sum_perm Q), tally_sum. unfold keys_of.
  apply length_map.
Qed.

Lemma count_value_number (n : nat) :
  num_is_nan (ToNumber (count_value n)) = false.
Proof.
  unfold count_value, num_of_nat, num_of_Z. cbn [ToNumber].
  destruct (Z.of_nat n); reflexivity.
Qed.

Lemma entries_count_number (key : Car -> value) (fd : list Car)
    (kv : string * value) :
  In kv (Object_entries (count_by key fd)) ->
  num_is_nan (ToNumber (snd kv)) = false.
Proof.
  intros H. destruct (entries_counts key fd) as (ns & E & _).
  apply (in_map snd) in H. rewrite E in H.
  apply in_map_iff in H as (n & <- & _). apply count_value_number.
Qed.

Lemma in_map_count (A B : Type) (f : A -> B) (p : B -> bool) (l : list A) :
  List.length (filter (fun x => p (f x)) l) =
  List.length (filter p (map f l)).
Proof.
  induction l as [|x l IH]; [reflexivity|].
  cbn [map filter]. destruct (p (f x)); simpl; rewrite IH; reflexivity.
Qed.

Lemma filter_eqb_notin (k : string) (l : list string) :
  ~ In k l -> filter (fun x => String.eqb x k) l = [].
Proof.
  induction l as [|x l IH]; intros H; [reflexivity|].
  cbn [filter]. destruct (String.eqb_spec x k) as [->|D].
  - exfalso. apply H. left. reflexivity.
  - apply IH. intros Hk. apply H. right. exact Hk.
Qed.

Lemma NoDup_count_one (k : string) (l : list string) :
  NoDup l -> In k l ->
  List.length (filter (fun x => String.eqb x k) l) = 1%nat.
Proof.
  induction 1 as [|x l Hx N IH]; intros H; [destruct H|].
  cbn [filter]. destruct (String.eqb_spec x k) as [->|D].
  - rewrite filter_eqb_notin by exact Hx. reflexivity.
  - destruct H as [H|H]; [congruence|]. apply IH, H.
Qed.
End SortedCharts.

Section Yearly.
Variable fd : list Car.
Hypothesis years_ok : Forall (fun d => truthy_number (year d)) fd.

Lemma yearly_unfold :
  yearly fd =
  isort year_after (map year_entry (Object_entries (count_by year fd))).
Proof.
  unfold yearly, js_sort. f_equal. apply map_ext. intros [k c].
  reflexivity.
Qed.

Lemma year_key (k : string) :
  In k (keys_of year fd) ->
  exists y d, In d fd /\ year d = VNum y /\ num_is_nan y = false
              /\ k = num_to_string y.
Proof.
  intros H. apply in_map_iff in H as (d & <- & Hd).
  pose proof years_ok as Y. rewrite Forall_forall in Y.
  destruct (Y _ Hd) as (y & E & N & _).
  exists y, d. rewrite E. auto.
Qed.

Lemma year_entry_spec (kv : string * value) :
  In (fst kv) (keys_of year fd) ->
  year_text (year_entry kv) = fst kv
  /\ numeric_year (year_entry kv)
  /\ exists d, In d fd
               /\ strict_equal (yc_year (year_entry kv)) (year d) = true.
Proof.
  intros H. destruct (year_key _ H) as (y & d & Hd & E & N & K).
  pose proof (string_to_num_to_string _ N) as R.
  unfold year_text, year_entry, numeric_year, Number.
  cbn [yc_year ToString ToNumber]. rewrite K. repeat split.
  - apply num_to_string_eqb, R.
  - eexists. split; [reflexivity|]. apply (num_eqb_not_nan _ _ R).
  - exists d. split; [exact Hd|]. rewrite E. exact R.
Qed.

Lemma entry_key_In (kv : string * value) :
  In kv (Object_entries (count_by year fd)) ->
  In (fst kv) (keys_of year fd).
Proof. intros H. apply entries_key_In, in_map, H. Qed.

Lemma entries_texts :
  map year_text (map year_entry (Object_entries (count_by year fd))) =
  map fst (Object_entries (count_by year fd)).
Proof.
  rewrite map_map. apply map_ext_in. intros kv H.
  apply year_entry_spec, entry_key_In, H.
Qed.

Lemma yearly_perm :
  Permutation (yearly fd)
              (map year_entry (Object_entries (count_by year fd))).
Proof. rewrite yearly_unfold. apply isort_perm. Qed.

Lemma yearly_In (e : YearCount) :
  In e (yearly fd) ->
  exists kv, In kv (Object_entries (count_by year fd)) /\ e = year_entry kv.
Proof.
  intros H. apply (Permutation_in _ yearly_perm) in H.
  apply in_map_iff in H as (kv & <- & Hkv). eauto.
Qed.

Lemma entries_numeric :
  Forall numeric_year (map year_entry (Object_entries (count_by year fd))).
Proof.
  apply Forall_forall. intros e H.
  apply in_map_iff in H as (kv & <- & Hkv).
  apply year_entry_spec, entry_key_In, Hkv.
Qed.

Lemma yearly_numeric : Forall numeric_year (yearly fd).
Proof.
  eapply Permutation_Forall;
    [apply Permutation_sym, yearly_perm|apply entries_numeric].
Qed.

Lemma yearly_texts_NoDup : NoDup (map year_text (yearly fd)).
Proof.
  eapply Permutation_NoDup.
  - apply Permutation_map, Permutation_sym, yearly_perm.
  - rewrite entries_texts. apply entries_keys_NoDup.
Qed.

Lemma year_after_ltb (a b : YearCount) :
  year_after a b = num_ltb (ToNumber (yc_year b)) (ToNumber (yc_year a)).
Proof. unfold year_after, js_sub. cbn [ToNumber]. apply num_sub_positive. Qed.

Lemma numeric_year_number (e : YearCount) :
  numeric_year e -> num_is_nan (ToNumber (yc_year e)) = false.
Proof. intros (y & -> & N). exact N. Qed.

Lemma yearly_sorted_le :
  StronglySorted (fun a b => year_after a b = false) (yearly fd).
Proof.
  rewrite yearly_unfold.
  apply isort_sorted with (P := numeric_year).
  - intros a b _ _. rewrite !year_after_ltb. apply num_ltb_asym.
  - intros a b c Ha Hb Hc. rewrite !year_after_ltb. intros H1 H2.
    apply num_le_trans with (ToNumber (yc_year b));
      auto using numeric_year_number.
  - apply entries_numeric.
Qed.

Lemma numeric_year_eqb (a b : YearCount) :
  numeric_year a -> numeric_year b ->
  num_eqb (ToNumber (yc_year a)) (ToNumber (yc_year b)) =
  String.eqb (year_text a) (year_text b).
Proof.
  intros (x & Ea & Na) (y & Eb & Nb). unfold year_text.
  rewrite Ea, Eb. cbn [ToNumber ToString].
  destruct (num_eqb x y) eqn:E.
  - symmetry. apply String.eqb_eq, num_to_string_eqb, E.
  - destruct (String.eqb_spec (num_to_string x) (num_to_string y)) as [T|T];
      [|reflexivity].
    apply num_to_string_inj in T; congruence.
Qed.

Lemma strictly_sorted (l : list YearCount) :
  StronglySorted (fun a b => year_after a b = false) l ->
  NoDup (map year_text l) -> Forall numeric_year l ->
  StronglySorted year_lt l.
Proof.
  induction 1 as [|x l S IH F]; intros N Q; [constructor|].
  cbn [map] in N. inversion N as [|? ? Hx Nl]; subst.
  inversion Q as [|? ? Qx Ql]; subst.
  constructor; [apply IH; assumption|].
  rewrite Forall_forall in *. intros y Hy. unfold year_lt.
  apply num_le_neq_lt; auto using numeric_year_number.
  - rewrite <- year_after_ltb. apply F, Hy.
  - rewrite numeric_year_eqb by auto. apply String.eqb_neq.
    intros E. apply Hx. rewrite E. apply in_map, Hy.
Qed.

Lemma yearly_strict : StronglySorted year_lt (yearly fd).
Proof.
  apply strictly_sorted;
    auto using yearly_sorted_le, yearly_texts_NoDup, yearly_numeric.
Qed.

Lemma year_lt_not_equal (a b : YearCount) :
  numeric_year a -> numeric_year b -> year_lt a b ->
  strict_equal (yc_year a) (yc_year b) = false.
Proof.
  intros (x & Ea & Na) (y & Eb & Nb). unfold year_lt.
  rewrite Ea, Eb. cbn [ToNumber strict_equal]. unfold num_ltb, num_eqb.
  destruct (num_compare x y) as [[]|]; congruence.
Qed.

Lemma yearly_once (d : Car) :
  In d fd ->
  List.length (filter (fun e => strict_equal (yc_year e) (year d))
                      (yearly fd)) = 1%nat.
Proof.
  intros Hd. pose proof years_ok as Y. rewrite Forall_forall in Y.
  destruct (Y _ Hd) as (y & E & N & _). rewrite E.
  rewrite (@filter_ext_in _ _
             (fun e => String.eqb (year_text e) (num_to_string y))).
  - rewrite (@in_map_count _ _ year_text
               (fun x => String.eqb x (num_to_string y))).
    apply NoDup_count_one; [apply yearly_texts_NoDup|].
    eapply Permutation_in;
      [apply Permutation_map, Permutation_sym, yearly_perm|].
    rewrite entries_texts. apply entries_key_In.
    apply in_map_iff. exists d. rewrite E. auto.
  - intros e He.
    pose proof yearly_numeric as Q. rewrite Forall_forall in Q.
    destruct (Q _ He) as (x & Ex & Nx).
    assert (B : numeric_year {| yc_year := VNum y; yc_count := VNull |})
      by (exists y; auto).
    pose proof (@numeric_year_eqb e _ (Q _ He) B) as T.
    unfold year_text in *. cbn [yc_year ToNumber ToString] in T.
    rewrite Ex in *. exact T.
Qed.

Lemma yearly_from_records (e : YearCount) :
  In e (yearly fd) ->
  exists d, In d fd /\ strict_equal (yc_year e) (year d) = true.
Proof.
  intros H. apply yearly_In in H as (kv & Hkv & ->).
  apply year_entry_spec, entry_key_In, Hkv.
Qed.

Lemma yearly_counts :
  exists ns, map yc_count (yearly fd) = map count_value ns
             /\ list_sum ns = List.length fd.
Proof.
  destruct (entries_counts year fd) as (ns & E & S).
  assert (P : Permutation (map yc_count (yearly fd)) (map count_value ns)).
  { rewrite <- E.
    eapply perm_trans; [apply Permutation_map, yearly_perm|].
    rewrite map_map. apply Permutation_refl. }
  apply Permutation_map_inv in P as (ns' & E' & Q).
  exists ns'. split; [exact E'|]. rewrite <- (list_sum_perm Q). exact S.
Qed.
End Yearly.

Lemma filtered_years_ok (raw : option (list RawRow)) (filters : Filters) :
  Forall (fun d => truthy_number (year d)) (filteredData (data raw) filters).
Proof.
  apply Forall_forall. intros d Hd.
  apply (proj1 (proj2 (C10_filter_subsequence _ _))) in Hd.
  eapply data_year_truthy, Hd.
Qed.

(** C5. The yearly chart of a filtered set is strictly ascending by year,
    so no two entries have the same year; every year of the filtered set
    has exactly one entry, every entry is the year of some record, and the
    counts are natural numbers whose sum is the size of the filtered set. *)
Theorem C5_yearly_sorted_and_complete (raw : option (list RawRow))
    (filters : Filters) :
  StronglySorted year_lt (yearly (filteredData (data raw) filters))
  /\ (forall a b,
        precedes a b (yearly (filteredData (data raw) filters)) ->
        strict_equal (yc_year a) (yc_year b) = false
        /\ strict_equal (yc_year b) (yc_year a) = false)
  /\ (forall d,
        In d (filteredData (data raw) filters) ->
        List.length
          (filter (fun e => strict_equal (yc_year e) (year d))
                  (yearly (filteredData (data raw) filters))) = 1%nat)
  /\ (forall e,
        In e (yearly (filteredData (data raw) filters)) ->
        exists d, In d (filteredData (data raw) filters)
                  /\ strict_equal (yc_year e) (year d) = true)
  /\ exists ns,
       map yc_count (yearly (filteredData (data raw) filters))
       = map count_value ns
       /\ list_sum ns = List.length (filteredData (data raw) filters).
Proof.
  pose proof (filtered_years_ok raw filters) as Y.
  set (fd := filteredData (data raw) filters) in *.
  split; [apply yearly_strict, Y|].
  split; [|split; [apply yearly_once, Y
           |split; [apply yearly_from_records, Y|apply yearly_counts]]].
  intros a b P.
  pose proof (StronglySorted_precedes (yearly_strict Y) P) as L.
  destruct (precedes_In P) as [Ha Hb].
  pose proof (yearly_numeric Y) as Q. rewrite Forall_forall in Q.
  pose proof (year_lt_not_equal (Q _ Ha) (Q _ Hb) L) as N.
  split; [exact N|].
  destruct (Q _ Ha) as (x & Ea & _), (Q _ Hb) as (y & Eb & _).
  rewrite Ea, Eb in *. cbn [strict_equal] in *.
  rewrite num_eqb_sym. exact N.
Qed.

(** ** Top states *)

Section TopStates.
Variable fd : list Car.






Lemma num_eqb_not_ltb (x y : number) :
  num_eqb x y = true -> num_ltb x y = false.
Proof.
  unfold num_eqb, num_ltb. destruct (num_compare x y) as [[]|]; congruence.
Qed.






End TopStates.



(** ** The dropdown options *)

Section StringOrder.
Lemma string_compare_le_trans (a b c : string) :
  String.compare a b <> Gt -> String.compare b c <> Gt ->
  String.compare a c <> Gt.
Proof.
  revert b c. induction a as [|x a IH]; intros [|y b] [|z c];
    cbn [String.compare]; try congruence.
  unfold Ascii.compare.
  destruct (N.compare_spec (N_of_ascii x) (N_of_ascii y)) as [E1|L1|G1];
    destruct (N.compare_spec (N_of_ascii y) (N_of_ascii z)) as [E2|L2|G2];
    intros H1 H2; try congruence.
  - rewrite E1, E2, N.compare_refl. eapply IH; eauto.
  - assert (L : (N_of_ascii x < N_of_ascii z)%N) by lia.
    apply N.compare_lt_iff in L. rewrite L. discriminate.
  - assert (L : (N_of_ascii x < N_of_ascii z)%N) by lia.
    apply N.compare_lt_iff in L. rewrite L. discriminate.
  - assert (L : (N_of_ascii x < N_of_ascii z)%N) by lia.
    apply N.compare_lt_iff in L. rewrite L. discriminate.
Qed.

Lemma string_ltb_leb (a b : string) :
  String.ltb b a = false <-> String.leb a b = true.
Proof.
  unfold String.ltb, String.leb. rewrite (String.compare_antisym b a).
  destruct (String.compare a b); simpl; split; congruence.
Qed.

Lemma string_leb_trans (a b c : string) :
  String.leb a b = true -> String.leb b c = true -> String.leb a c = true.
Proof.
  unfold String.leb. intros H1 H2.
  pose proof (@string_compare_le_trans a b c) as T.
  destruct (String.compare a b), (String.compare b c),
    (String.compare a c); try reflexivity; try discriminate;
    exfalso; apply T; congruence.
Qed.

Lemma string_ltb_asym (a b : string) :
  String.ltb a b = true -> String.ltb b a = false.
Proof.
  unfold String.ltb. rewrite (String.compare_antisym b a).
  destruct (String.compare a b); simpl; congruence.
Qed.
End StringOrder.

Section SetFacts.

Lemma strict_equal_sym (a b : value) : strict_equal a b = strict_equal b a.
Proof.
  destruct a, b; try reflexivity; cbn [strict_equal].
  - destruct b, b0; reflexivity.
  - apply num_eqb_sym.
  - apply String.eqb_sym.
Qed.

Lemma num_to_string_NaN (x : number) :
  num_to_string x = num_to_string NaN -> x = NaN.
Proof.
  intros E. destruct (num_is_nan x) eqn:N;
    [destruct x; try discriminate; reflexivity|].
  pose proof (string_to_num_to_string _ N) as R. rewrite E in R.
  discriminate.
Qed.

Lemma svz_key_eq (a b : value) :
  SameValueZero a b = true <-> svz_key a = svz_key b.
Proof.
  destruct a as [| |[]|x|x], b as [| |[]|y|y];
    cbn [SameValueZero strict_equal svz_key Bool.eqb];
    try (split; discriminate); try (split; reflexivity).
  - destruct (num_is_nan x) eqn:Nx.
    { destruct x; try discriminate. split.
      - destruct y; try discriminate. reflexivity.
      - intros [= E]. symmetry in E. apply num_to_string_NaN in E.
        subst y. reflexivity. }
    destruct (num_is_nan y) eqn:Ny.
    { destruct y; try discriminate. split.
      - destruct x; discriminate.
      - intros [= E]. apply num_to_string_NaN in E. congruence. }
    cbn [andb orb]. split.
    + intros E. f_equal. apply num_to_string_eqb, E.
    + intros [= E]. apply num_to_string_inj; assumption.
  - rewrite String.eqb_eq. split; congruence.
Qed.

Lemma svz_key_stored (v : value) : svz_key (stored v) = svz_key v.
Proof. destruct v as [| | | [| | |] |]; reflexivity. Qed.

Lemma set_add_spec (s : list value) (v : value) :
  (In (svz_key v) (map svz_key s) /\ set_add s v = s)
  \/ (~ In (svz_key v) (map svz_key s) /\ set_add s v = s ++ [stored v]).
Proof.
  unfold set_add. destruct (existsb (SameValueZero v) s) eqn:E.
  - left. split; [|reflexivity].
    apply existsb_exists in E as (x & Hx & S).
    apply svz_key_eq in S. rewrite S. apply in_map, Hx.
  - right. split; [|reflexivity]. intros H.
    apply in_map_iff in H as (x & K & Hx).
    assert (S : SameValueZero v x = true) by (apply svz_key_eq; auto).
    assert (T : existsb (SameValueZero v) s = true)
      by (apply existsb_exists; eauto).
    congruence.
Qed.

Lemma fold_set_add (l s : list value) :
  NoDup (map svz_key s) ->
  NoDup (map svz_key (fold_left set_add l s))
  /\ (forall x, In x (fold_left set_add l s) ->
                In x s \/ exists v, In v l /\ x = stored v)
  /\ (forall v, In v l \/ In v s ->
                In (svz_key v) (map svz_key (fold_left set_add l s))).
Proof.
  revert s. induction l as [|v l IH]; intros s N.
  - cbn [fold_left]. repeat split; auto.
    intros v [[]|H]. apply in_map, H.
  - cbn [fold_left].
    destruct (set_add_spec s v) as [[K E]|[K E]]; rewrite E.
    + destruct (IH s N) as (N' & I & C). repeat split; auto.
      * intros x Hx. destruct (I x Hx) as [H|(w & Hw & ->)]; auto.
        right. exists w. split; [right; exact Hw|reflexivity].
      * intros w [[<-|H]|H]; auto.
        apply in_map_iff in K as (x & Kx & Hx). rewrite <- Kx.
        apply C. right. exact Hx.
    + assert (N1 : NoDup (map svz_key (s ++ [stored v]))).
      { rewrite map_app. cbn [map]. rewrite svz_key_stored.
        apply NoDup_app; [exact N|repeat constructor; auto|].
        intros k H [<-|[]]. exact (K H). }
      destruct (IH _ N1) as (N' & I & C). repeat split; auto.
      * intros x Hx. destruct (I x Hx) as [H|(w & Hw & ->)].
        -- apply in_app_or in H as [H|[<-|[]]]; auto.
           right. exists v. split; [left|]; reflexivity.
        -- right. exists w. split; [right; exact Hw|reflexivity].
      * intros w [[<-|H]|H].
        -- rewrite <- svz_key_stored. apply C. right.
           apply in_or_app. right. left. reflexivity.
        -- apply C. left. exact H.
        -- apply C. right. apply in_or_app. left. exact H.
Qed.

Lemma Set_of_NoDup (l : list value) : NoDup (map svz_key (Set_of l)).
Proof. apply (fold_set_add l []). constructor. Qed.

Lemma Set_of_In (l : list value) (x : value) :
  In x (Set_of l) -> exists v, In v l /\ x = stored v.
Proof.
  intros H. destruct (@fold_set_add l []) as (_ & I & _); [constructor|].
  destruct (I x H) as [[]|E]. exact E.
Qed.

Lemma Set_of_complete (l : list value) (v : value) :
  In v l -> exists x, In x (Set_of l) /\ SameValueZero v x = true.
Proof.
  intros H. destruct (@fold_set_add l []) as (_ & _ & C); [constructor|].
  specialize (C v (or_introl H)).
  apply in_map_iff in C as (x & K & Hx).
  exists x. split; [exact Hx|]. apply svz_key_eq. auto.
Qed.
End SetFacts.

Section Options.
Variable cleaned : list Car.
Hypothesis years_ok : Forall (fun d => truthy_number (year d)) cleaned.
Hypothesis states_ok : Forall (fun d => ToBoolean (state d) = true) cleaned.

Lemma stored_truthy (v : value) : ToBoolean v = true -> stored v = v.
Proof. destruct v as [| | |[| | |]|]; try reflexivity. discriminate. Qed.

Lemma truthy_number_truthy (v : value) :
  truthy_number v -> ToBoolean v = true.
Proof. intros (n & -> & N & Z). cbn [ToBoolean]. rewrite N, Z. reflexivity. Qed.

Lemma year_set_In (v : value) :
  In v (Set_of (map year cleaned)) ->
  exists d, In d cleaned /\ v = year d.
Proof.
  intros H. apply Set_of_In in H as (w & Hw & ->).
  apply in_map_iff in Hw as (d & <- & Hd). exists d. split; [exact Hd|].
  apply stored_truthy, truthy_number_truthy.
  pose proof years_ok as Y. rewrite Forall_forall in Y. apply Y, Hd.
Qed.

Lemma state_set_In (v : value) :
  In v (Set_of (map state cleaned)) ->
  exists d, In d cleaned /\ v = state d.
Proof.
  intros H. apply Set_of_In in H as (w & Hw & ->).
  apply in_map_iff in Hw as (d & <- & Hd). exists d. split; [exact Hd|].
  apply stored_truthy.
  pose proof states_ok as Y. rewrite Forall_forall in Y. apply Y, Hd.
Qed.

Lemma year_set_numeric : Forall numeric (Set_of (map year cleaned)).
Proof.
  apply Forall_forall. intros v H.
  apply year_set_In in H as (d & Hd & ->).
  pose proof years_ok as Y. rewrite Forall_forall in Y.
  destruct (Y _ Hd) as (y & E & N & _). exists y. auto.
Qed.

Lemma number_after_ltb (a b : value) :
  number_after a b = num_ltb (ToNumber b) (ToNumber a).
Proof. unfold number_after, js_sub. cbn [ToNumber]. apply num_sub_positive. Qed.

Lemma numeric_number (v : value) :
  numeric v -> num_is_nan (ToNumber v) = false.
Proof. intros (y & -> & N). exact N. Qed.

Lemma numeric_same_key (a b : value) :
  numeric a -> numeric b ->
  num_eqb (ToNumber a) (ToNumber b) = true -> svz_key a = svz_key b.
Proof.
  intros (x & -> & Nx) (y & -> & Ny) E. apply svz_key_eq.
  cbn [SameValueZero ToNumber] in *. rewrite E. apply orb_true_r.
Qed.

Lemma years_tail_sorted :
  StronglySorted value_lt (isort number_after (Set_of (map year cleaned))).
Proof.
  assert (Q : Forall numeric
                (isort number_after (Set_of (map year cleaned)))).
  { eapply Permutation_Forall;
      [apply Permutation_sym, isort_perm|apply year_set_numeric]. }
  assert (N : NoDup (map svz_key
                (isort number_after (Set_of (map year cleaned))))).
  { eapply Permutation_NoDup;
      [apply Permutation_map, Permutation_sym, isort_perm|].
    apply Set_of_NoDup. }
  assert (S : StronglySorted (fun a b => number_after a b = false)
                (isort number_after (Set_of (map year cleaned)))).
  { apply isort_sorted with (P := numeric).
    - intros a b _ _. rewrite !number_after_ltb. apply num_ltb_asym.
    - intros a b c Ha Hb Hc. rewrite !number_after_ltb. intros H1 H2.
      apply num_le_trans with (ToNumber b); auto using numeric_number.
    - apply year_set_numeric. }
  induction S as [|x l S IH F]; [constructor|].
  cbn [map] in N. inversion N as [|? ? Hx Nl]; subst.
  inversion Q as [|? ? Qx Ql]; subst.
  constructor; [apply IH; assumption|].
  rewrite Forall_forall in F, Ql. apply Forall_forall.
  intros y Hy. unfold value_lt.
  apply num_le_neq_lt; auto using numeric_number.
  - rewrite <- number_after_ltb. apply F, Hy.
  - destruct (num_eqb (ToNumber x) (ToNumber y)) eqn:E; [|reflexivity].
    exfalso. apply Hx. rewrite (numeric_same_key Qx (Ql _ Hy) E).
    apply in_map, Hy.
Qed.

Lemma years_complete (d : Car) :
  In d cleaned ->
  exists v, In v (isort number_after (Set_of (map year cleaned)))
            /\ strict_equal v (year d) = true.
Proof.
  intros Hd.
  destruct (@Set_of_complete (map year cleaned) (year d)) as (x & Hx & S);
    [apply in_map, Hd|].
  exists x. split; [apply isort_In, Hx|].
  pose proof year_set_numeric as Q. rewrite Forall_forall in Q.
  destruct (Q _ Hx) as (x' & -> & Nx).
  pose proof years_ok as Y. rewrite Forall_forall in Y.
  destruct (Y _ Hd) as (y & E & Ny & _). rewrite E in *.
  cbn [SameValueZero strict_equal] in *. rewrite Nx, Ny in S.
  cbn [andb orb] in S. rewrite num_eqb_sym. exact S.
Qed.

Lemma state_set_defined :
  Forall (fun v => v <> VUndefined) (Set_of (map state cleaned)).
Proof.
  apply Forall_forall. intros v H.
  apply state_set_In in H as (d & Hd & ->).
  pose proof states_ok as Y. rewrite Forall_forall in Y.
  specialize (Y _ Hd). intros E. rewrite E in Y. discriminate.
Qed.

Lemma default_after_defined (a b : value) :
  a <> VUndefined -> b <> VUndefined ->
  default_after a b = String.ltb (ToString b) (ToString a).
Proof. destruct a, b; congruence || reflexivity. Qed.

Lemma states_tail_sorted :
  StronglySorted text_le (js_sort_default (Set_of (map state cleaned))).
Proof.
  unfold js_sort_default.
  assert (Q : Forall (fun v => v <> VUndefined)
                (isort default_after (Set_of (map state cleaned)))).
  { eapply Permutation_Forall;
      [apply Permutation_sym, isort_perm|apply state_set_defined]. }
  assert (S : StronglySorted (fun a b => default_after a b = false)
                (isort default_after (Set_of (map state cleaned)))).
  { apply isort_sorted with (P := fun v => v <> VUndefined).
    - intros a b Ha Hb. rewrite !default_after_defined by assumption.
      apply string_ltb_asym.
    - intros a b c Ha Hb Hc. rewrite !default_after_defined by assumption.
      rewrite !string_ltb_leb. apply string_leb_trans.
    - apply state_set_defined. }
  induction S as [|x l S IH F]; [constructor|].
  inversion Q as [|? ? Qx Ql]; subst.
  constructor; [apply IH; assumption|].
  rewrite Forall_forall in F, Ql. apply Forall_forall.
  intros y Hy. unfold text_le.
  apply string_ltb_leb. rewrite <- default_after_defined; auto.
Qed.

Lemma states_distinct (a b : value) :
  precedes a b (js_sort_default (Set_of (map state cleaned))) ->
  SameValueZero a b = false.
Proof.
  intros P. destruct (SameValueZero a b) eqn:E; [|reflexivity].
  exfalso. apply svz_key_eq in E. revert E.
  apply precedes_NoDup_map
    with (l := js_sort_default (Set_of (map state cleaned))); [|exact P].
  eapply Permutation_NoDup;
    [apply Permutation_map, Permutation_sym, isort_perm|].
  apply Set_of_NoDup.
Qed.

Lemma states_complete (d : Car) :
  In d cleaned ->
  exists s, In s (js_sort_default (Set_of (map state cleaned)))
            /\ SameValueZero (state d) s = true.
Proof.
  intros Hd.
  destruct (@Set_of_complete (map state cleaned) (state d)) as (x & Hx & S);
    [apply in_map, Hd|].
  exists x. split; [apply isort_In, Hx|exact S].
Qed.
End Options.

Lemma data_states_ok (raw : option (list RawRow)) :
  Forall (fun d => ToBoolean (state d) = true) (data raw).
Proof.
  apply Forall_forall. intros d Hd.
  apply data_In in Hd as (rows & r & _ & _ & _ & ->).
  apply clean_row_text.
Qed.

Lemma data_years_ok (raw : option (list RawRow)) :
  Forall (fun d => truthy_number (year d)) (data raw).
Proof. apply Forall_forall. intros d. apply data_year_truthy. Qed.

(** C9. The two option lists are computed from the cleaned records alone:
    two renders over the same rows give the same lists whatever the two
    filter selections (and clocks) are.  Each list starts with ["All"]; the
    years follow in strictly ascending order, each the year of a record and
    every record's year among them; the states follow in the order of their
    texts, pairwise distinct, each the state of a record and every record's
    state among them. *)
Theorem C9_options_ignore_filters (raw : option (list RawRow))
    (f1 f2 : Filters) (now1 now2 : value) :
  v_years (render raw f1 now1) = v_years (render raw f2 now2)
  /\ v_states (render raw f1 now1) = v_states (render raw f2 now2)
  /\ exists ys ss,
       v_years (render raw f1 now1) = VStr "All" :: ys
       /\ v_states (render raw f1 now1) = VStr "All" :: ss
       /\ StronglySorted value_lt ys
       /\ (forall v, In v ys -> exists d, In d (data raw) /\ v = year d)
       /\ (forall d, In d (data raw) ->
                     exists v, In v ys /\ strict_equal v (year d) = true)
       /\ StronglySorted text_le ss
       /\ (forall a b, precedes a b ss -> SameValueZero a b = false)
       /\ (forall s, In s ss -> exists d, In d (data raw) /\ s = state d)
       /\ (forall d, In d (data raw) ->
                     exists s, In s ss /\ SameValueZero (state d) s = true).
Proof.
  split; [reflexivity|]. split; [reflexivity|].
  pose proof (data_years_ok raw) as Y. pose proof (data_states_ok raw) as S.
  exists (isort number_after (Set_of (map year (data raw)))),
         (js_sort_default (Set_of (map state (data raw)))).
  split; [reflexivity|]. split; [reflexivity|].
  split; [apply years_tail_sorted, Y|].
  split; [intros v H; apply isort_In in H; apply year_set_In; assumption|].
  split; [apply years_complete, Y|].
  split; [apply states_tail_sorted, S|].
  split; [apply states_distinct|].
  split; [intros s H; apply isort_In in H; apply state_set_In; assumption|].
  apply states_complete.
Qed.

(** ** The scenarios of the specification *)

(** Two rows of 2020 and one row with a malformed year: two records are
    left, and the yearly chart has the single entry 2020 with count 2. *)
Example scenario_malformed_year_dropped :
  List.length (data (Some scenario_rows)) = 2%nat
  /\ yearly (filteredData (data (Some scenario_rows)) all_filters)
     = [{| yc_year := int 2020; yc_count := int 2 |}].
Proof. split; reflexivity. Qed.

(** The selection of one year keeps the records of that year only. *)
Example scenario_filter_one_year :
  map year
      (filteredData
         (data (Some [row (int 2019) (VStr "WA") (int 1);
                      row (int 2020) (VStr "CA") (int 2);
                      row (int 2021) (VStr "WA") (int 3);
                      row (int 2020) (VStr "OR") (int 4)]))
         {| f_year := VStr "2020"; f_state := VStr "All" |})
  = [int 2020; int 2020].
Proof. reflexivity. Qed.

(** Two records of "WA" and one of "CA". *)
Example scenario_top_states :
  topStates
    (data (Some [row (int 2020) (VStr "WA") (int 1);
                 row (int 2021) (VStr "CA") (int 2);
                 row (int 2022) (VStr "WA") (int 3)]))
  = [{| sc_state := VStr "WA"; sc_count := int 2 |};
     {| sc_state := VStr "CA"; sc_count := int 1 |}].
Proof. reflexivity. Qed.

(** The average of the ranges 150 and 0 (an empty cell). *)
Example scenario_average :
  ToString (avgBattery (data (Some scenario_rows))) = "75".
Proof. reflexivity. Qed.

(** * Further properties of the component *)

(** ** Counts per group *)

Lemma tally_add_lookup (t : list (string * nat)) (x k : string) :
  lookup (tally_add t x) k =
  (lookup t k + (if String.eqb x k then 1 else 0))%nat.
Proof.
  induction t as [|[k' n] r IH]; cbn [tally_add lookup].
  - destruct (String.eqb x k); reflexivity.
  - destruct (String.eqb_spec k' x) as [->|N]; cbn [lookup].
    + destruct (String.eqb x k); lia.
    + rewrite IH. destruct (String.eqb_spec k' k) as [->|N']; [|reflexivity].
      destruct (String.eqb_spec x k) as [->|_]; [congruence|lia].
Qed.

Lemma fold_tally_lookup (ks : list string) (t : list (string * nat))
    (k : string) :
  lookup (fold_left tally_add ks t) k = (lookup t k + occurrences k ks)%nat.
Proof.
  revert t. induction ks as [|x ks IH]; intros t.
  - unfold occurrences. simpl. lia.
  - cbn [fold_left]. rewrite IH, tally_add_lookup. unfold occurrences.
    cbn [filter]. rewrite (String.eqb_sym k x).
    destruct (String.eqb x k); simpl; lia.
Qed.

Lemma lookup_In (t : list (string * nat)) (k : string) (n : nat) :
  NoDup (map fst t) -> In (k, n) t -> lookup t k = n.
Proof.
  induction t as [|[k' m] r IH]; intros N H; [destruct H|].
  cbn [map fst] in N. inversion N as [|? ? Hk Nr]; subst.
  cbn [lookup]. destruct H as [E|H].
  - injection E as -> ->. rewrite String.eqb_refl. reflexivity.
  - destruct (String.eqb_spec k' k) as [->|_]; [|apply IH; assumption].
    exfalso. apply Hk. apply (in_map fst) in H. exact H.
Qed.

Lemma occurrences_keys (key : Car -> value) (k : string) (fd : list Car) :
  occurrences k (keys_of key fd) = records_with key k fd.
Proof.
  unfold occurrences, records_with, keys_of. symmetry.
  apply (in_map_count (fun d => ToString (key d)) (String.eqb k)).
Qed.

(** Every entry of a grouping object holds the number of records of its
    key. *)
Lemma entries_count_records (key : Car -> value) (fd : list Car)
    (kv : string * value) :
  In kv (Object_entries (count_by key fd)) ->
  snd kv = count_value (records_with key (fst kv) fd).
Proof.
  intros H. apply (Permutation_in _ (Object_entries_perm _)) in H.
  rewrite count_by_tally in H. apply in_map_iff in H as ([k n] & <- & H).
  cbn [fst snd]. f_equal. rewrite <- occurrences_keys.
  rewrite <- (@lookup_In (tally (keys_of key fd)) k n).
  - unfold tally. rewrite fold_tally_lookup. reflexivity.
  - rewrite tally_keys. apply firsts_NoDup.
  - exact H.
Qed.

Lemma vehicleTypes_unfold (fd : list Car) :
  vehicleTypes fd = map type_entry (Object_entries (count_by vehicle_type fd)).
Proof. unfold vehicleTypes. apply map_ext. intros [k c]. reflexivity. Qed.

Lemma type_keys (fd : list Car) :
  map type_key (vehicleTypes fd) =
  map fst (Object_entries (count_by vehicle_type fd)).
Proof. rewrite vehicleTypes_unfold, map_map. reflexivity. Qed.




Lemma num_compare_of_mantissa (x y : Z) :
  num_compare (of_mantissa x 0) (of_mantissa y 0) = Some (x ?= y)%Z.
Proof.
  assert (R : forall z, rank 0 (of_mantissa z 0) = Fin z).
  { intros [|p|p]; cbn [of_mantissa rank signed]; rewrite ?scale_same;
      reflexivity. }
  rewrite (@compare_rank 0%Z).
  - rewrite !R. reflexivity.
  - destruct x; reflexivity.
  - destruct y; reflexivity.
  - destruct x; cbn [of_mantissa exponent]; lia.
  - destruct y; cbn [of_mantissa exponent]; lia.
Qed.


Lemma num_leb_of_nat (a b : nat) :
  num_leb (num_of_nat a) (num_of_nat b) = (a <=? b)%nat.
Proof.
  unfold num_leb, num_of_nat, num_of_Z. rewrite num_compare_of_mantissa.
  destruct (Z.compare_spec (Z.of_nat a) (Z.of_nat b));
    destruct (Nat.leb_spec a b); try reflexivity; lia.
Qed.

Lemma strict_equal_trans (a b c : value) :
  strict_equal a b = true -> strict_equal b c = true ->
  strict_equal a c = true.
Proof.
  destruct a as [| |x|x|x], b as [| |y|y|y], c as [| |z|z|z];
    cbn [strict_equal]; try discriminate; auto.
  - destruct x, y, z; auto.
  - apply num_eqb_trans.
  - rewrite !String.eqb_eq. congruence.
Qed.

Lemma strict_equal_congr (a b v : value) :
  strict_equal a b = true -> strict_equal v a = strict_equal v b.
Proof.
  intros E. destruct (strict_equal v a) eqn:Ea.
  - symmetry. eapply strict_equal_trans; eauto.
  - destruct (strict_equal v b) eqn:Eb; [|reflexivity].
    rewrite strict_equal_sym in E.
    rewrite (strict_equal_trans _ _ _ Eb E) in Ea. discriminate.
Qed.

Lemma year_entry_records (fd : list Car) (kv : string * value) :
  Forall (fun d => truthy_number (year d)) fd ->
  In kv (Object_entries (count_by year fd)) ->
  records_with year (fst kv) fd
  = records_of_year (yc_year (year_entry kv)) fd.
Proof.
  intros Y H. unfold records_with, records_of_year. f_equal.
  apply filter_ext_in. intros d Hd.
  destruct (year_entry_spec Y kv (entry_key_In _ _ H)) as (T & Q & _).
  rewrite Forall_forall in Y. destruct (Y _ Hd) as (y & E & N & _).
  assert (D : numeric_year {| yc_year := year d; yc_count := VNull |})
    by (exists y; auto).
  pose proof (numeric_year_eqb D Q) as B.
  rewrite T in B. unfold year_text in B. cbn [yc_year] in B.
  rewrite String.eqb_sym, <- B.
  destruct Q as (x & Ex & _). rewrite Ex, E. reflexivity.
Qed.

Lemma yearly_entry_count (fd : list Car) (e : YearCount) :
  Forall (fun d => truthy_number (year d)) fd ->
  In e (yearly fd) ->
  yc_count e = count_value (records_of_year (yc_year e) fd).
Proof.
  intros Y H. apply yearly_In in H as (kv & Hkv & ->).
  rewrite <- (year_entry_records _ Y Hkv).
  apply (entries_count_records _ _ _ Hkv).
Qed.

(** X4. In the yearly chart of a filtered set, the count of an entry is the
    number of filtered records whose year [===] the year of the entry. *)
Theorem X4_yearly_count_per_year (raw : option (list RawRow))
    (filters : Filters) :
  Forall (fun e =>
            yc_count e
            = count_value
                (records_of_year (yc_year e)
                                 (filteredData (data raw) filters)))
         (yearly (filteredData (data raw) filters)).
Proof.
  apply Forall_forall. intros e He.
  apply yearly_entry_count; [apply filtered_years_ok|exact He].
Qed.





Lemma thisYear_count (now : value) (fd : list Car) :
  thisYear now fd = count_value (records_of_year now fd).
Proof. reflexivity. Qed.

(** X7. "Registered This Year" counts the filtered records whose year
    [===] the current year, and is never more than "Total EVs". *)
Theorem X7_thisYear_at_most_total (now : value) (fd : list Car) :
  thisYear now fd = count_value (records_of_year now fd)
  /\ (records_of_year now fd <= List.length fd)%nat
  /\ num_leb (ToNumber (thisYear now fd)) (ToNumber (total fd)) = true.
Proof.
  split; [reflexivity|].
  assert (L : (records_of_year now fd <= List.length fd)%nat)
    by apply filter_length_le.
  split; [exact L|].
  rewrite thisYear_count. unfold total, count_value. cbn [ToNumber].
  rewrite num_leb_of_nat. apply Nat.leb_le, L.
Qed.

(** X8. On a filtered set, "Registered This Year" agrees with the yearly
    chart: it is the count of the chart's entry for the current year, and
    it is [0] when the chart has no entry for that year. *)
Theorem X8_thisYear_matches_yearly (raw : option (list RawRow))
    (filters : Filters) (now : value) :
  (forall e,
     In e (yearly (filteredData (data raw) filters)) ->
     strict_equal (yc_year e) now = true ->
     yc_count e = thisYear now (filteredData (data raw) filters))
  /\ ((forall e,
         In e (yearly (filteredData (data raw) filters)) ->
         strict_equal (yc_year e) now = false) ->
      thisYear now (filteredData (data raw) filters) = VNum (Zero false)).
Proof.
  pose proof (filtered_years_ok raw filters) as Y.
  set (fd := filteredData (data raw) filters) in *.
  split.
  - intros e He E. rewrite (yearly_entry_count _ Y He), thisYear_count.
    f_equal. unfold records_of_year. f_equal.
    apply filter_ext. intros d. apply strict_equal_congr, E.
  - intros H. rewrite thisYear_count. unfold records_of_year.
    destruct (filter (fun d => strict_equal (year d) now) fd)
      as [|d l] eqn:F; [reflexivity|].
    exfalso.
    assert (Hd : In d fd /\ strict_equal (year d) now = true).
    { apply (proj1 (filter_In (fun d => strict_equal (year d) now) d fd)).
      rewrite F. left. reflexivity. }
    destruct Hd as [Hd E].
    pose proof (yearly_once Y d Hd) as O.
    destruct (filter (fun e => strict_equal (yc_year e) (year d))
                     (yearly fd)) as [|e l'] eqn:G; [discriminate|].
    assert (He : In e (yearly fd)
                 /\ strict_equal (yc_year e) (year d) = true).
    { apply (proj1 (filter_In
                      (fun e => strict_equal (yc_year e) (year d))
                      e (yearly fd))).
      rewrite G. left. reflexivity. }
    destruct He as [He E'].
    pose proof (H e He) as C.
    rewrite (strict_equal_trans _ _ _ E' E) in C. discriminate.
Qed.

(** X9. Filtering is idempotent: the records a selection keeps all pass the
    same selection again. *)
Theorem X9_filter_idempotent (cleaned : list Car) (filters : Filters) :
  filteredData (filteredData cleaned filters) filters
  = filteredData cleaned filters.
Proof.
  rewrite !filteredData_filter, filter_twice. apply filter_ext.
  intros d. destruct (selected filters d); reflexivity.
Qed.

(** X10. The two dropdowns narrow independently: filtering by a year and
    then by a state, or by the state and then by the year, gives the
    records that one selection of both gives. *)
Theorem X10_filters_compose (cleaned : list Car) (y s : value) :
  filteredData (filteredData cleaned (select_year y all_filters))
               (select_state s all_filters)
  = filteredData cleaned (select_state s (select_year y all_filters))
  /\ filteredData (filteredData cleaned (select_state s all_filters))
                  (select_year y all_filters)
     = filteredData cleaned (select_state s (select_year y all_filters)).
Proof.
  split; rewrite !filteredData_filter, filter_twice; apply filter_ext;
    intros d; unfold selected, select_year, select_state, all_filters;
    cbn [f_year f_state];
    change (strict_equal (VStr "All") (VStr "All")) with true;
    rewrite ?orb_true_l, ?andb_true_r, ?andb_true_l;
    [reflexivity|apply andb_comm].
Qed.

Lemma string_of_number_not_All (y : number) :
  num_is_nan y = false -> (num_to_string y =? "All")%string = false.
Proof.
  intros N. destruct (String.eqb_spec (num_to_string y) "All") as [E|];
    [|reflexivity].
  pose proof (string_to_num_to_string _ N) as R. rewrite E in R.
  assert (A : string_to_num "All" = NaN) by (vm_compute; reflexivity).
  rewrite A in R. discriminate R.
Qed.

Lemma year_option_selected (y : number) :
  num_is_nan y = false ->
  forall g d,
    selected (select_year (option_value (VNum y)) g) d
    = strict_equal (year d) (VNum y)
      && selected (select_year (VStr "All") g) d.
Proof.
  intros N g d. unfold selected, select_year, option_value.
  cbn [f_year f_state ToString Number ToNumber].
  change (strict_equal (VStr "All") (VStr "All")) with true.
  change (strict_equal (VStr (num_to_string y)) (VStr "All"))
    with (num_to_string y =? "All")%string.
  rewrite (string_of_number_not_All _ N). cbn [orb].
  f_equal. apply strict_equal_congr. cbn [strict_equal].
  apply string_to_num_to_string, N.
Qed.

(** X11. Each year offered by the year dropdown, once chosen, selects
    exactly the records of that year (further narrowed by the state
    selection); with no state selected the result is not empty. *)
Theorem X11_year_option_selects_its_records (raw : option (list RawRow))
    (f : Filters) :
  Forall (fun v =>
            filteredData (data raw) (select_year (option_value v) f)
            = filteredData
                (filter (fun d => strict_equal (year d) v) (data raw))
                (select_year (VStr "All") f)
            /\ filteredData (data raw)
                 (select_year (option_value v) all_filters) <> [])
         (tl (years (data raw))).
Proof.
  apply Forall_forall. intros v Hv.
  change (In v (isort number_after (Set_of (map year (data raw))))) in Hv.
  apply isort_In in Hv.
  destruct (year_set_In (data_years_ok raw) _ Hv) as (d0 & Hd0 & E0).
  pose proof (data_years_ok raw) as Y. rewrite Forall_forall in Y.
  destruct (Y _ Hd0) as (y & Ey & N & _).
  rewrite Ey in E0. subst v.
  pose proof (year_option_selected y N) as K.
  split.
  - rewrite !filteredData_filter, filter_twice. apply filter_ext.
    intros d. apply K.
  - intros F.
    assert (I : In d0 (filteredData (data raw)
                         (select_year (option_value (VNum y)) all_filters))).
    { rewrite filteredData_filter. apply filter_In. split; [exact Hd0|].
      rewrite K, Ey. cbn [strict_equal]. rewrite (num_eqb_refl _ N).
      reflexivity. }
    rewrite F in I. destruct I.
Qed.

(** X12. A state option that is a string other than ["All"], once chosen,
    selects exactly the records of that state (further narrowed by the
    year selection). *)
Theorem X12_state_option_selects_its_records (cleaned : list Car)
    (f : Filters) (s : string) :
  s <> "All" ->
  filteredData cleaned (select_state (option_value (VStr s)) f)
  = filteredData (filter (fun d => strict_equal (state d) (VStr s)) cleaned)
                 (select_state (VStr "All") f).
Proof.
  intros Hs. rewrite !filteredData_filter, filter_twice. apply filter_ext.
  intros d. unfold selected, select_state, option_value.
  cbn [f_year f_state ToString].
  change (strict_equal (VStr "All") (VStr "All")) with true.
  change (strict_equal (VStr s) (VStr "All")) with (s =? "All")%string.
  destruct (String.eqb_spec s "All") as [E|_]; [contradiction|].
  cbn [orb]. rewrite andb_true_r. apply andb_comm.
Qed.

Lemma X12_state_option_witness :
  "CA" <> "All"
  /\ filteredData (data (Some scenario_rows))
       (select_state (option_value (VStr "CA")) all_filters)
     = filteredData
         (filter (fun d => strict_equal (state d) (VStr "CA"))
                 (data (Some scenario_rows)))
         (select_state (VStr "All") all_filters).
Proof.
  split; [discriminate|].
  apply (@X12_state_option_selects_its_records
           (data (Some scenario_rows)) all_filters "CA").
  discriminate.
Defined.

(** X13. A record whose state is not a string (a number or a boolean that
    [dynamicTyping] produced) is hidden by every state option other than
    ["All"], its own included: the option's value is a string, and [===]
    does not convert. *)
Theorem X13_non_string_state_never_selected (f : Filters) (v : value)
    (d : Car) :
  option_value v <> VStr "All" ->
  (forall s, state d <> VStr s) ->
  ToBoolean (keep (select_state (option_value v) f) d) = false.
Proof.
  intros Hv Hd. rewrite keep_selected. unfold selected, select_state.
  cbn [f_year f_state].
  assert (E : exists s, option_value v = VStr s)
    by (destruct v; eexists; reflexivity).
  destruct E as (s & E). rewrite E in *.
  change (strict_equal (VStr s) (VStr "All")) with (s =? "All")%string.
  destruct (String.eqb_spec s "All") as [->|_]; [contradiction Hv; reflexivity|].
  cbn [orb].
  destruct (state d) as [| |b|n|t] eqn:S; cbn [strict_equal];
    try apply andb_false_r.
  exfalso. apply (Hd t). reflexivity.
Qed.

Lemma X13_non_string_state_witness :
  option_value (int 10) <> VStr "All"
  /\ (forall s, state (clean_row (row (int 2020) (int 10) (int 1))) <> VStr s)
  /\ ToBoolean
       (keep (select_state (option_value (int 10)) all_filters)
             (clean_row (row (int 2020) (int 10) (int 1)))) = false.
Proof.
  assert (H1 : option_value (int 10) <> VStr "All") by discriminate.
  assert (H2 : forall s,
             state (clean_row (row (int 2020) (int 10) (int 1))) <> VStr s)
    by discriminate.
  split; [exact H1|]. split; [exact H2|].
  apply (@X13_non_string_state_never_selected all_filters (int 10)
           (clean_row (row (int 2020) (int 10) (int 1))) H1 H2).
Defined.

(** X14. When the selection keeps no record, the three KPIs are [0] (the
    average is not [NaN]: the divisor is at least [1]) and the three charts
    are empty. *)
Theorem X14_empty_selection (raw : option (list RawRow)) (filters : Filters)
    (now : value) :
  filteredData (data raw) filters = [] ->
  v_total (render raw filters now) = VNum (Zero false)
  /\ v_thisYear (render raw filters now) = VNum (Zero false)
  /\ v_avgBattery (render raw filters now) = VNum (Zero false)
  /\ v_yearly (render raw filters now) = []
  /\ v_topStates (render raw filters now) = []
  /\ v_vehicleTypes (render raw filters now) = [].
Proof.
  intros E. unfold render.
  cbn [v_total v_thisYear v_avgBattery v_yearly v_topStates v_vehicleTypes].
  rewrite E. repeat split; reflexivity.
Qed.

Lemma X14_empty_selection_witness :
  filteredData (data (Some scenario_rows))
               (select_year (VStr "1900") all_filters) = []
  /\ v_avgBattery (render (Some scenario_rows)
                          (select_year (VStr "1900") all_filters) (int 2024))
     = VNum (Zero false).
Proof.
  assert (H : filteredData (data (Some scenario_rows))
                (select_year (VStr "1900") all_filters) = [])
    by reflexivity.
  split; [exact H|].
  apply (@X14_empty_selection (Some scenario_rows)
           (select_year (VStr "1900") all_filters) (int 2024) H).
Defined.

Lemma loader_run_snoc (cs : list Callback) (c : Callback) :
  loader_run (cs ++ [c]) = loader_step (loader_run cs) c.
Proof. unfold loader_run. rewrite fold_left_app. reflexivity. Qed.

Lemma loader_loading (cs : list Callback) :
  l_loading (loader_run cs) = match cs with [] => true | _ => false end.
Proof.
  destruct cs as [|c cs] using rev_ind; [reflexivity|].
  rewrite loader_run_snoc.
  destruct c, cs; reflexivity.
Qed.

Lemma loader_error_last (cs1 cs2 : list Callback) (m : string) :
  (forall m', ~ In (error m') cs2) ->
  l_error (loader_run (cs1 ++ error m :: cs2)) = VStr m.
Proof.
  induction cs2 as [|c cs2 IH] using rev_ind; intros H.
  - rewrite loader_run_snoc. reflexivity.
  - rewrite app_comm_cons, app_assoc, loader_run_snoc.
    destruct c as [rows|m'].
    + cbn [loader_step l_error]. apply IH.
      intros m' I. apply (H m'), in_or_app. left. exact I.
    + exfalso. apply (H m'), in_or_app. right. left. reflexivity.
Qed.

Lemma loader_invariants (cs : list Callback) :
  (forall rows, l_raw (loader_run cs) = Some rows -> In (complete rows) cs)
  /\ ((forall rows, ~ In (complete rows) cs) ->
      l_raw (loader_run cs) = None)
  /\ (l_error (loader_run cs) = VNull
      \/ exists m, l_error (loader_run cs) = VStr m /\ In (error m) cs)
  /\ ((forall m, ~ In (error m) cs) -> l_error (loader_run cs) = VNull).
Proof.
  induction cs as [|c cs IH] using rev_ind.
  { repeat split; try discriminate; auto. }
  destruct IH as (R & R0 & Er & E0).
  rewrite loader_run_snoc.
  split; [|split; [|split]].
  - intros rows H. apply in_or_app. destruct c as [rows'|m].
    + right. left. cbn [loader_step l_raw] in H. congruence.
    + left. apply R, H.
  - intros H. destruct c as [rows'|m].
    + exfalso. apply (H rows'), in_or_app. right. left. reflexivity.
    + cbn [loader_step l_raw]. apply R0.
      intros rows I. apply (H rows), in_or_app. left. exact I.
  - destruct c as [rows'|m].
    + cbn [loader_step l_error]. destruct Er as [Er|(m & Er & I)].
      * left. exact Er.
      * right. exists m. split; [exact Er|]. apply in_or_app. left. exact I.
    + right. exists m. split; [reflexivity|].
      apply in_or_app. right. left. reflexivity.
  - intros H. destruct c as [rows'|m].
    + cbn [loader_step l_error]. apply E0.
      intros m I. apply (H m), in_or_app. left. exact I.
    + exfalso. apply (H m), in_or_app. right. left. reflexivity.
Qed.

(** X15. The state of the loader after any sequence of callbacks:
    [loading] is true exactly until the first callback; [raw] holds rows
    only if [complete] delivered them, and stays [null] without a
    [complete]; [error] is [null] or the message that an [error] callback
    delivered, and stays [null] without one. *)
Theorem X15_loader_state (cs : list Callback) :
  (l_loading (loader_run cs) = true <-> cs = [])
  /\ (forall rows, l_raw (loader_run cs) = Some rows ->
                   In (complete rows) cs)
  /\ ((forall rows, ~ In (complete rows) cs) ->
      l_raw (loader_run cs) = None)
  /\ (l_error (loader_run cs) = VNull
      \/ exists m, l_error (loader_run cs) = VStr m /\ In (error m) cs)
  /\ ((forall m, ~ In (error m) cs) -> l_error (loader_run cs) = VNull).
Proof.
  split; [|apply loader_invariants].
  rewrite loader_loading. destruct cs; split; congruence.
Qed.

(** X16. What [App] shows: the loading text exactly until the first
    callback; the error text with the last message reported, when that
    message is not empty, also when rows arrive afterwards; and otherwise
    the dashboard over the rows held, which for a failure with an empty
    message is the dashboard without any data. *)
Theorem X16_App_screens (cs : list Callback) (filters : Filters)
    (now : value) :
  (App_component (loader_run cs) filters now = LoadingScreen <-> cs = [])
  /\ (forall cs1 m cs2,
        cs = cs1 ++ error m :: cs2 ->
        (forall m', ~ In (error m') cs2) ->
        App_component (loader_run cs) filters now
        = if is_failure (error m) then ErrorScreen (VStr m)
          else Dashboard (render (l_raw (loader_run cs)) filters now))
  /\ (cs <> [] -> (forall m, ~ In (error m) cs) ->
      exists rows,
        In (complete rows) cs
        /\ App_component (loader_run cs) filters now
           = Dashboard (render (Some rows) filters now)).
Proof.
  unfold App_component. rewrite loader_loading.
  split; [|split].
  - destruct cs; [split; reflexivity|].
    split; [|discriminate].
    destruct (ToBoolean _); discriminate.
  - intros cs1 m cs2 -> H.
    destruct (cs1 ++ error m :: cs2) eqn:E;
      [destruct cs1; discriminate|].
    rewrite <- E, (loader_error_last cs1 cs2 m H). reflexivity.
  - intros Hne H. destruct cs as [|c cs]; [contradiction|].
    destruct (loader_invariants (c :: cs)) as (R & _ & _ & E0).
    rewrite (E0 H). cbn [ToBoolean].
    destruct (l_raw (loader_run (c :: cs))) as [rows|] eqn:L.
    + exists rows. split; [apply R; reflexivity|reflexivity].
    + exfalso.
      assert (A : forall l, (forall m, ~ In (error m) l) -> l <> [] ->
                            l_raw (loader_run l) <> None).
      { clear. intros l. destruct l as [|x l] using rev_ind;
          [congruence|]. intros H _. rewrite loader_run_snoc.
        destruct x as [rows|m]; [discriminate|].
        exfalso. apply (H m), in_or_app. right. left. reflexivity. }
      apply (A (c :: cs) H); [discriminate|exact L].
Qed.

Lemma cell_fill_palette (index : nat) :
  exists c, cell_fill index = VStr c /\ In c COLORS.
Proof.
  unfold cell_fill.
  destruct (nth_error COLORS (index mod List.length COLORS)) as [c|] eqn:E.
  - exists c. split; [reflexivity|]. eapply nth_error_In, E.
  - apply nth_error_None in E.
    pose proof (Nat.mod_upper_bound index (List.length COLORS)) as B.
    cbn [COLORS List.length] in E, B. lia.
Qed.

Lemma cell_fill_same (i j : nat) :
  cell_fill i = cell_fill j <-> i mod 6 = j mod 6.
Proof.
  unfold cell_fill. change (List.length COLORS) with 6%nat.
  pose proof (Nat.mod_upper_bound i 6) as Bi.
  pose proof (Nat.mod_upper_bound j 6) as Bj.
  destruct (i mod 6) as [|[|[|[|[|[|a]]]]]]; [| | | | | |lia];
    destruct (j mod 6) as [|[|[|[|[|[|b]]]]]]; try lia;
    cbn [nth_error COLORS]; split; intros H;
    try reflexivity; try discriminate H.
Qed.

Lemma array_map_index_nth (A B : Type) (f : A -> nat -> B) (l : list A)
    (start i : nat) :
  nth_error (array_map_index f start l) i
  = option_map (fun x => f x (start + i)%nat) (nth_error l i).
Proof.
  revert start i. induction l as [|x l IH]; intros start i.
  - destruct i; reflexivity.
  - destruct i as [|i]; cbn [array_map_index nth_error option_map].
    + rewrite Nat.add_0_r. reflexivity.
    + rewrite IH. rewrite Nat.add_succ_comm. reflexivity.
Qed.

Lemma array_map_index_map (A B C : Type) (f : A -> nat -> B) (g : B -> C)
    (h : A -> C) (l : list A) (start : nat) :
  (forall x i, g (f x i) = h x) ->
  map g (array_map_index f start l) = map h l.
Proof.
  intros H. revert start. induction l as [|x l IH]; intros start;
    [reflexivity|].
  cbn [array_map_index map]. rewrite H, IH. reflexivity.
Qed.

(** X17. The slices of the pie chart: one cell per entry of
    [vehicleTypes], keyed by the entry's type, so the keys are pairwise
    different; every cell gets a colour of the palette, never [undefined];
    two cells have the same colour exactly when their positions differ by a
    multiple of six, so up to six types are all coloured differently. *)
Theorem X17_pie_cells_colours (fd : list Car) :
  map cell_key (pie_cells (vehicleTypes fd)) = map tc_type (vehicleTypes fd)
  /\ NoDup (map cell_key (pie_cells (vehicleTypes fd)))
  /\ (forall i c,
        nth_error (pie_cells (vehicleTypes fd)) i = Some c ->
        exists colour, fill c = VStr colour /\ In colour COLORS)
  /\ (forall i j ci cj,
        nth_error (pie_cells (vehicleTypes fd)) i = Some ci ->
        nth_error (pie_cells (vehicleTypes fd)) j = Some cj ->
        (fill ci = fill cj <-> i mod 6 = j mod 6)).
Proof.
  assert (K : map cell_key (pie_cells (vehicleTypes fd))
              = map tc_type (vehicleTypes fd)).
  { unfold pie_cells. apply array_map_index_map. reflexivity. }
  assert (F : forall i c,
             nth_error (pie_cells (vehicleTypes fd)) i = Some c ->
             fill c = cell_fill i).
  { intros i c H. unfold pie_cells in H. rewrite array_map_index_nth in H.
    destruct (nth_error (vehicleTypes fd) i); [|discriminate].
    injection H as <-. reflexivity. }
  split; [exact K|]. split; [|split].
  - rewrite K.
    assert (N : NoDup (map type_key (vehicleTypes fd))).
    { rewrite type_keys. apply entries_keys_NoDup. }
    unfold type_key in N. rewrite <- (map_map tc_type ToString) in N.
    apply NoDup_map_inv in N. exact N.
  - intros i c H. rewrite (F i c H). apply cell_fill_palette.
  - intros i j ci cj Hi Hj. rewrite (F i ci Hi), (F j cj Hj).
    apply cell_fill_same.
Qed.

Lemma num_order_cycle (a x b y : number) :
  num_ltb a x = true -> num_eqb x b = true ->
  num_ltb b y = true -> num_eqb a y = true -> False.
Proof.
  intros Lax Exb Lby Eay.
  destruct (num_eqb_not_nan _ _ Exb) as [Nx Nb].
  destruct (num_eqb_not_nan _ _ Eay) as [Na Ny].
  assert (Lbx : num_ltb b x = false).
  { rewrite num_eqb_sym in Exb. apply num_eqb_not_ltb, Exb. }
  pose proof (num_ltb_asym _ _ Lby) as Lyb.
  pose proof (num_eqb_not_ltb _ _ Eay) as Lay.
  pose proof (num_le_trans x b y Nx Nb Ny Lbx Lyb) as Lyx.
  pose proof (num_le_trans x y a Nx Ny Na Lyx Lay) as C.
  congruence.
Qed.

Lemma num_eqb_not_before (a x b : number) :
  num_ltb a x = true -> num_eqb x b = true -> num_eqb a b = true -> False.
Proof.
  intros L E1 E2. rewrite num_eqb_sym in E1.
  pose proof (num_eqb_not_ltb _ _ (num_eqb_trans _ _ _ E2 E1)). congruence.
Qed.

Section SameKeys.
Variables A B : Type.
Variable ka : A -> number.
Variable kb : B -> number.

(** Two lists in strictly ascending order of their keys that hold the same
    keys are equal key by key. *)
Lemma sorted_same_keys (l1 : list A) (l2 : list B) :
  StronglySorted (fun x y => num_ltb (ka x) (ka y) = true) l1 ->
  StronglySorted (fun x y => num_ltb (kb x) (kb y) = true) l2 ->
  (forall x, In x l1 ->
             exists y, In y l2 /\ num_eqb (ka x) (kb y) = true) ->
  (forall y, In y l2 ->
             exists x, In x l1 /\ num_eqb (ka x) (kb y) = true) ->
  Forall2 (fun x y => num_eqb (ka x) (kb y) = true) l1 l2.
Proof.
  revert l2. induction l1 as [|a l1 IH]; intros [|b l2] S1 S2 I1 I2.
  - constructor.
  - destruct (I2 b (or_introl eq_refl)) as (x & [] & _).
  - destruct (I1 a (or_introl eq_refl)) as (y & [] & _).
  - apply StronglySorted_inv in S1 as [S1 F1].
    apply StronglySorted_inv in S2 as [S2 F2].
    rewrite Forall_forall in F1, F2.
    assert (H0 : num_eqb (ka a) (kb b) = true).
    { destruct (I1 a (or_introl eq_refl)) as (y & [<-|Hy] & Ey);
        [exact Ey|].
      destruct (I2 b (or_introl eq_refl)) as (x & [<-|Hx] & Ex);
        [exact Ex|].
      exfalso.
      apply (@num_order_cycle (ka a) (ka x) (kb b) (kb y)); auto. }
    constructor; [exact H0|]. apply IH; [exact S1|exact S2| |].
    + intros x Hx. destruct (I1 x (or_intror Hx)) as (y & [<-|Hy] & Ey).
      * exfalso. apply (@num_eqb_not_before (ka a) (ka x) (kb b)); auto.
      * exists y. auto.
    + intros y Hy. destruct (I2 y (or_intror Hy)) as (x & [<-|Hx] & Ex).
      * exfalso.
        apply (@num_eqb_not_before (kb b) (kb y) (ka a)); auto.
        -- rewrite num_eqb_sym. exact Ex.
        -- rewrite num_eqb_sym. exact H0.
      * exists x. auto.
Qed.

Lemma Forall2_In_impl (R R' : A -> B -> Prop) (l1 : list A) (l2 : list B) :
  (forall x y, In x l1 -> In y l2 -> R x y -> R' x y) ->
  Forall2 R l1 l2 -> Forall2 R' l1 l2.
Proof.
  intros H F. induction F as [|x y l1 l2 Rxy F IH]; constructor.
  - apply H; [left; reflexivity|left; reflexivity|exact Rxy].
  - apply IH. intros x' y' Hx Hy. apply H; right; assumption.
Qed.

End SameKeys.

Lemma strict_equal_numbers (a b : value) :
  strict_equal a b = true -> (exists x, a = VNum x) ->
  num_eqb (ToNumber a) (ToNumber b) = true.
Proof.
  intros E (x & ->). destruct b; try discriminate E. exact E.
Qed.

(** X18. With nothing selected, the year dropdown and the yearly chart
    list the same years in the same order: after ["All"], the options are,
    one by one, [===] the years of the chart's entries. *)
Theorem X18_year_options_match_chart (raw : option (list RawRow)) :
  Forall2 (fun v e => strict_equal v (yc_year e) = true)
          (tl (years (data raw)))
          (yearly (filteredData (data raw) all_filters)).
Proof.
  pose proof (data_years_ok raw) as Y.
  pose proof (filtered_years_ok raw all_filters) as Yf.
  change (tl (years (data raw)))
    with (isort number_after (Set_of (map year (data raw)))).
  assert (Same : forall d, In d (filteredData (data raw) all_filters)
                           <-> In d (data raw)).
  { intros d. rewrite filteredData_filter, filter_In. split; [tauto|].
    intros H. split; [exact H|reflexivity]. }
  assert (Nv : forall v,
             In v (isort number_after (Set_of (map year (data raw)))) ->
             exists d x, In d (data raw) /\ v = year d /\ v = VNum x).
  { intros v Hv. apply isort_In in Hv.
    destruct (year_set_In Y _ Hv) as (d & Hd & E).
    rewrite Forall_forall in Y. destruct (Y _ Hd) as (x & Ex & _).
    exists d, x. split; [exact Hd|]. split; [exact E|]. congruence. }
  apply Forall2_In_impl
    with (R := fun v e => num_eqb (ToNumber v) (ToNumber (yc_year e)) = true).
  { intros v e Hv He E. destruct (Nv v Hv) as (_ & x & _ & _ & ->).
    pose proof (yearly_numeric Yf) as Q. rewrite Forall_forall in Q.
    destruct (Q e He) as (y & Ey & _). rewrite Ey in *. exact E. }
  apply sorted_same_keys
    with (ka := ToNumber) (kb := fun e => ToNumber (yc_year e)).
  - apply (years_tail_sorted Y).
  - apply (yearly_strict Yf).
  - intros v Hv. destruct (Nv v Hv) as (d & x & Hd & E & Ex).
    apply Same in Hd. pose proof (yearly_once Yf d Hd) as O.
    destruct (filter (fun e => strict_equal (yc_year e) (year d))
                (yearly (filteredData (data raw) all_filters)))
      as [|e l] eqn:G; [discriminate|].
    assert (He : In e (yearly (filteredData (data raw) all_filters))
                 /\ strict_equal (yc_year e) (year d) = true).
    { apply (proj1 (filter_In
                      (fun e => strict_equal (yc_year e) (year d)) e
                      (yearly (filteredData (data raw) all_filters)))).
      rewrite G. left. reflexivity. }
    destruct He as [He Ee]. exists e. split; [exact He|].
    apply strict_equal_numbers; [|exists x; exact Ex].
    rewrite strict_equal_sym, E. exact Ee.
  - intros e He.
    destruct (yearly_from_records Yf e He) as (d & Hd & Ee).
    apply Same in Hd.
    destruct (years_complete Y d Hd) as (v & Hv & Ev).
    exists v. split; [exact Hv|].
    destruct (Nv v Hv) as (_ & x & _ & _ & Ex).
    apply strict_equal_numbers; [|exists x; exact Ex].
    rewrite strict_equal_sym in Ee.
    apply (strict_equal_trans _ _ _ Ev Ee).
Qed.

Lemma filter_all_pass (A : Type) (p : A -> bool) (l : list A) :
  (forall x, In x l -> p x = true) -> filter p l = l.
Proof.
  induction l as [|x l IH]; intros H; [reflexivity|].
  cbn [filter]. rewrite (H x (or_introl eq_refl)), IH; [reflexivity|].
  intros z Hz. apply H. right. exact Hz.
Qed.

(** X19. After a year of the dropdown is chosen the yearly chart has a
    single bar: every entry it has is its only entry, is for the chosen
    year, and counts all the selected records, the "Total EVs"; with no
    state selected the bar is there. *)
Theorem X19_year_option_single_bar (raw : option (list RawRow))
    (f : Filters) :
  Forall (fun v =>
            (forall e,
               In e (yearly (filteredData (data raw)
                               (select_year (option_value v) f))) ->
               yearly (filteredData (data raw)
                         (select_year (option_value v) f)) = [e]
               /\ strict_equal (yc_year e) v = true
               /\ yc_count e
                  = total (filteredData (data raw)
                             (select_year (option_value v) f)))
            /\ yearly (filteredData (data raw)
                         (select_year (option_value v) all_filters)) <> [])
         (tl (years (data raw))).
Proof.
  apply Forall_forall. intros v Hv.
  change (In v (isort number_after (Set_of (map year (data raw))))) in Hv.
  apply isort_In in Hv.
  destruct (year_set_In (data_years_ok raw) _ Hv) as (d0 & Hd0 & E0).
  pose proof (data_years_ok raw) as Y. rewrite Forall_forall in Y.
  destruct (Y _ Hd0) as (y & Ey & N & _).
  rewrite Ey in E0. subst v.
  pose proof (year_option_selected y N) as K.
  assert (All : forall g d,
             In d (filteredData (data raw)
                     (select_year (option_value (VNum y)) g)) ->
             strict_equal (year d) (VNum y) = true).
  { intros g d Hd. rewrite filteredData_filter in Hd.
    apply filter_In in Hd as [_ Hd]. rewrite K in Hd.
    apply andb_prop in Hd as [Hd _]. exact Hd. }
  split.
  - pose proof (filtered_years_ok raw (select_year (option_value (VNum y)) f))
      as Yf.
    set (fd := filteredData (data raw)
                 (select_year (option_value (VNum y)) f)) in *.
    assert (Ev : forall e, In e (yearly fd) ->
                           strict_equal (yc_year e) (VNum y) = true).
    { intros e He.
      destruct (yearly_from_records Yf e He) as (d & Hd & Ee).
      apply (strict_equal_trans _ _ _ Ee (All f d Hd)). }
    intros e He. split; [|split; [apply Ev, He|]].
    + pose proof (yearly_strict Yf) as S.
      destruct (yearly fd) as [|a [|b l]] eqn:L.
      * destruct He.
      * destruct He as [->|[]]. reflexivity.
      * exfalso. apply StronglySorted_inv in S as [_ S].
        apply Forall_inv in S. unfold year_lt in S.
        pose proof (Ev a (or_introl eq_refl)) as Ea.
        pose proof (Ev b (or_intror (or_introl eq_refl))) as Eb.
        rewrite strict_equal_sym in Eb.
        pose proof (strict_equal_trans _ _ _ Ea Eb) as Eab.
        destruct (yc_year a) as [| | |x|]; try discriminate Ea.
        destruct (yc_year b) as [| | |z|]; try discriminate Eab.
        cbn [ToNumber strict_equal] in S, Eab.
        rewrite (num_eqb_not_ltb _ _ Eab) in S. discriminate.
    + rewrite (yearly_entry_count _ Yf He). unfold total, count_value.
      do 2 f_equal. unfold records_of_year. f_equal.
      apply filter_all_pass. intros d Hd.
      pose proof (Ev e He) as Ee. rewrite strict_equal_sym in Ee.
      apply (strict_equal_trans _ _ _ (All f d Hd) Ee).
  - pose proof (filtered_years_ok raw
                  (select_year (option_value (VNum y)) all_filters)) as Yf.
    assert (I : In d0 (filteredData (data raw)
                         (select_year (option_value (VNum y)) all_filters))).
    { rewrite filteredData_filter. apply filter_In. split; [exact Hd0|].
      rewrite K, Ey. cbn [strict_equal]. rewrite (num_eqb_refl _ N).
      reflexivity. }
    pose proof (yearly_once Yf d0 I) as O. intros F. rewrite F in O.
    discriminate O.
Qed.
